(** * Resume analyzer backend: skill matching, ATS score, report assembly

    A shallow embedding of [main.py].  Python strings are modelled as Rocq
    [string]s (sequences of 8-bit characters); the case folding [lower] is
    Python's [str.lower] on the ASCII range.  Python floats are IEEE-754
    binary64 numbers, modelled with the executable specification
    [SpecFloat] at precision 53 and maximal exponent 1024. *)

From Stdlib Require Import ZArith Ascii String List Lia Bool DecimalString.
From Stdlib Require Import Floats.SpecFloat.
From stdpp Require Import base gmap sets list strings sorting.

Local Open Scope Z_scope.

(** ** Strings *)

Module Str.

(** [c.lower()] for one character: only [A]..[Z] change. *)
Definition lower_char (c : ascii) : ascii :=
  let n := N_of_ascii c in
  if ((65 <=? n) && (n <=? 90))%N then ascii_of_N (n + 32) else c.

(** [s.lower()] *)
Fixpoint lower (s : string) : string :=
  match s with
  | EmptyString => EmptyString
  | String c s' => String (lower_char c) (lower s')
  end.

(** [c.upper()] for one character: only [a]..[z] change. *)
Definition upper_char (c : ascii) : ascii :=
  let n := N_of_ascii c in
  if ((97 <=? n) && (n <=? 122))%N then ascii_of_N (n - 32) else c.

(** [s.upper()] *)
Fixpoint upper (s : string) : string :=
  match s with
  | EmptyString => EmptyString
  | String c s' => String (upper_char c) (upper s')
  end.

(** [t.startswith(s)] *)
Fixpoint startswith (s t : string) : bool :=
  match s, t with
  | EmptyString, _ => true
  | String a s', String b t' => if Ascii.eqb a b then startswith s' t' else false
  | String _ _, EmptyString => false
  end.

(** [s in t] on strings: [s] occurs in [t] as a contiguous substring. *)
Fixpoint contains (s t : string) : bool :=
  if startswith s t then true
  else match t with
       | EmptyString => false
       | String _ t' => contains s t'
       end.

(** [s[:n]] *)
Fixpoint slice_to (n : nat) (s : string) : string :=
  match n, s with
  | O, _ => EmptyString
  | S n', String c s' => String c (slice_to n' s')
  | S _, EmptyString => EmptyString
  end.

(** [sep.join(parts)] *)
Fixpoint join (sep : string) (parts : list string) : string :=
  match parts with
  | [] => ""
  | [p] => p
  | p :: rest => p +:+ sep +:+ join sep rest
  end.

(** [s.split(sep)] for a one-character separator: the pieces between the
    occurrences of [sep]; never empty. *)
Fixpoint split_go (sep : ascii) (cur : string) (s : string) : list string :=
  match s with
  | EmptyString => [String.rev cur]
  | String c s' =>
      if Ascii.eqb c sep then String.rev cur :: split_go sep "" s'
      else split_go sep (String c cur) s'
  end.
Definition split (sep : ascii) (s : string) : list string := split_go sep "" s.

(** Python's [str.isspace] on the ASCII range. *)
Definition is_space (c : ascii) : bool :=
  let n := N_of_ascii c in
  (((9 <=? n) && (n <=? 13)) || ((28 <=? n) && (n <=? 32)))%N.

Fixpoint lstrip (s : string) : string :=
  match s with
  | String c s' => if is_space c then lstrip s' else s
  | EmptyString => EmptyString
  end.

(** [s.strip()] *)
Definition strip (s : string) : string :=
  String.rev (lstrip (String.rev (lstrip s))).

End Str.

(** ** Exceptions

    A Python exception that is an instance of [Exception]: its class name
    and [str(e)].  Signals outside that class ([KeyboardInterrupt],
    [SystemExit]) are not modelled. *)

Record exn := Exn { exn_class : string; exn_str : string }.

Inductive result (A : Type) : Type :=
| Ok (a : A)
| Raise (e : exn).
Arguments Ok {A} a.
Arguments Raise {A} e.

#[global] Instance result_ret : MRet result := λ A a, Ok a.
#[global] Instance result_bind : MBind result := λ A B f m,
  match m with
  | Ok a => f a
  | Raise e => Raise e
  end.

(** ** Floats

    Python's [float] is IEEE-754 binary64. *)

Module PyFloat.

Definition prec : Z := 53.
Definition emax : Z := 1024.

(** An integer as the pair (mantissa, exponent 0), not yet rounded. *)
Definition raw (z : Z) : spec_float :=
  match z with
  | Z0 => S754_zero false
  | Zpos p => S754_finite false p 0
  | Zneg p => S754_finite true p 0
  end.

(** [a / b] on two [int]s: the quotient of the two integers correctly
    rounded to the nearest double (ties to even); [ZeroDivisionError] for
    [b = 0], [OverflowError] when the quotient exceeds the doubles. *)
Definition int_truediv (a b : Z) : result spec_float :=
  if b =? 0 then Raise (Exn "ZeroDivisionError" "division by zero")
  else match SFdiv prec emax (raw a) (raw b) with
       | S754_infinity _ =>
           Raise (Exn "OverflowError" "integer division result too large for a float")
       | q => Ok q
       end.

(** [float(z)]; exact for [|z| < 2^53]. *)
Definition of_int (z : Z) : spec_float := binary_normalize prec emax z 0 false.

(** [x * y] on two floats. *)
Definition mul (x y : spec_float) : spec_float := SFmul prec emax x y.

(** [int(x)]: truncation toward zero. *)
Definition to_int (x : spec_float) : result Z :=
  match x with
  | S754_zero _ => Ok 0
  | S754_finite s m e =>
      Ok (cond_Zopp s (match e with
                       | Zneg k => Z.shiftr (Zpos m) (Zpos k)
                       | _ => Z.shiftl (Zpos m) e
                       end))
  | S754_infinity _ =>
      Raise (Exn "OverflowError" "cannot convert float infinity to integer")
  | S754_nan => Raise (Exn "ValueError" "cannot convert float NaN to integer")
  end.

End PyFloat.

(** ** Skill vocabulary and matcher *)

Definition COMMON_SKILLS : list string :=
  [ "python"; "java"; "javascript"; "react"; "next.js";
    "node.js"; "fastapi"; "sql"; "mysql"; "postgresql";
    "mongodb"; "aws"; "docker"; "kubernetes";
    "git"; "github"; "rest api"; "html"; "css";
    "flutter"; "dart";
    "machine learning"; "data analysis" ].

Definition extract_skills (text : string) : list string :=
  let t := Str.lower text in
  filter (λ s, Str.contains s t) COMMON_SKILLS.

(** ** ATS score *)

(** [sum(...)] over integers. *)
Definition py_sum (xs : list Z) : Z := foldl Z.add 0 xs.

Definition ats_keyword_score (resume_text : string) (jd_skills : list string)
  : result Z :=
  match jd_skills with
  | [] => Ok 0
  | _ =>
      let resume_text := Str.lower resume_text in
      let matched :=
        py_sum ((λ _, 1) <$> filter (λ s, Str.contains s resume_text) jd_skills) in
      q ← PyFloat.int_truediv matched (Z.of_nat (length jd_skills));
      PyFloat.to_int (PyFloat.mul q (PyFloat.of_int 100))
  end.

(** ** Report assembly (the pure part of [analyze_resume]) *)

(** [sorted(X)] for a set of strings: ascending by character codes. *)
Definition sorted (X : gset string) : list string :=
  merge_sort String.le (elements X).

(** [sorted(set(resume_skills) & set(jd_skills))] *)
Definition matched_skills (resume_skills jd_skills : list string) : list string :=
  sorted (list_to_set resume_skills ∩ list_to_set jd_skills).

(** [sorted(set(jd_skills) - set(resume_skills))] *)
Definition missing_skills (resume_skills jd_skills : list string) : list string :=
  sorted (list_to_set jd_skills ∖ list_to_set resume_skills).

(** [{s: (100 if s in matched else 0) for s in jd_skills}] *)
Definition skill_scores (matched jd_skills : list string) : gmap string Z :=
  foldl (λ d s, <[s := if bool_decide (s ∈ matched) then 100 else 0]> d) ∅ jd_skills.

(** ** Effects

    The external collaborators (temporary file, PDF and DOCX parsers, the
    HTTP client) are calls recorded in a trace; what they answer is given
    by a [world]. *)

Record request := {
  req_url : string;
  req_authorization : string;
  req_model : string;
  req_system : string;
  req_user : string;
  req_temperature : string;
  req_max_tokens : Z;
  req_timeout : Z
}.

(** What the code reads of an HTTP response; [json_content] is the outcome
    of [response.json()["choices"][0]["message"]["content"]]. *)
Record response := {
  status_code : Z;
  text : string;
  json_content : result string
}.

Inductive event : Type :=
| TempFileWrite (suffix : string) (data : list Byte.byte)
| PdfOpen (data : list Byte.byte)
| DocxOpen (data : list Byte.byte)
| DocxSave (file_id : string) (paragraphs : list string)
| HttpPost (req : request).

Record world := {
  OPENROUTER_API_KEY : option string;
  post_reply : request → result response;
  pdf_pages : list Byte.byte → result (list (option string));
  docx_paragraphs : list Byte.byte → result (list string);
  uuid4 : string
}.

Definition M (A : Type) : Type := list event → result A * list event.

#[global] Instance M_ret : MRet M := λ A a tr, (Ok a, tr).
#[global] Instance M_bind : MBind M := λ A B f m tr,
  match m tr with
  | (Ok a, tr') => f a tr'
  | (Raise e, tr') => (Raise e, tr')
  end.

Definition emit (ev : event) : M unit := λ tr, (Ok tt, tr ++ [ev]).
Definition lift {A} (r : result A) : M A := λ tr, (r, tr).

(** [try: body except Exception as e: handler e] *)
Definition try_except {A} (body : M A) (handler : exn → M A) : M A := λ tr,
  match body tr with
  | (Ok a, tr') => (Ok a, tr')
  | (Raise e, tr') => handler e tr'
  end.

(** ** Text extraction *)

Definition nl : string := String "010" "".

(** [x or d] on strings *)
Definition str_or (x d : string) : string :=
  match x with
  | EmptyString => d
  | _ => x
  end.

Definition extract_text_from_pdf (w : world) (data : list Byte.byte) : M string :=
  _ ← emit (PdfOpen data);
  pages ← lift (pdf_pages w data);
  mret (Str.strip
          (foldl (λ text page, text +:+ str_or (default "" page) "") "" pages)).

Definition extract_text_from_docx (w : world) (data : list Byte.byte) : M string :=
  _ ← emit (DocxOpen data);
  paragraphs ← lift (docx_paragraphs w data);
  mret (Str.strip (Str.join nl paragraphs)).

(** ** The critique call *)

Definition OPENROUTER_URL : string := "https://openrouter.ai/api/v1/chat/completions".
Definition OPENROUTER_MODEL : string := "meta-llama/llama-3.1-8b-instruct".

(** [not key] for [key : Optional[str]] *)
Definition key_missing (key : option string) : bool :=
  match key with
  | None | Some EmptyString => true
  | Some _ => false
  end.

Definition requests_post (w : world) (req : request) : M response :=
  _ ← emit (HttpPost req);
  lift (post_reply w req).

(** The arguments of the [requests.post] call. *)
Definition critique_request (w : world) (safe_prompt : string) : request :=
  {| req_url := OPENROUTER_URL;
     req_authorization := "Bearer " +:+ default "" (OPENROUTER_API_KEY w);
     req_model := OPENROUTER_MODEL;
     req_system :=
       "You are a senior hiring manager. Be realistic, strict, and practical.";
     req_user := safe_prompt;
     req_temperature := "0.4";
     req_max_tokens := 700;
     req_timeout := 60 |}.

Definition openrouter_think (w : world) (prompt : string) : M string :=
  if key_missing (OPENROUTER_API_KEY w)
  then mret "AI analysis unavailable (API key not configured)."
  else
    let safe_prompt := Str.slice_to 3000 prompt in
    try_except
      (response ← requests_post w (critique_request w safe_prompt);
       if negb (status_code response =? 200)
       then mret ("OpenRouter error: " +:+ text response)
       else content ← lift (json_content response);
            mret (Str.strip content))
      (λ e, mret ("AI error: " +:+ exn_str e)).

(** [str(z)] for an [int] *)
Definition str_of_int (z : Z) : string := NilZero.string_of_int (Z.to_int z).

(** The f-string of [ai_analysis]. *)
Definition ai_prompt (resume_text job_description : string) (score : Z)
    (matched missing : list string) : string :=
  nl +:+ "Job Description:" +:+ nl
  +:+ Str.slice_to 800 job_description +:+ nl
  +:+ nl
  +:+ "Resume:" +:+ nl
  +:+ Str.slice_to 800 resume_text +:+ nl
  +:+ nl
  +:+ "ATS Score: " +:+ str_of_int score +:+ "%" +:+ nl
  +:+ nl
  +:+ "Matched Skills: " +:+ str_or (Str.join ", " matched) "None" +:+ nl
  +:+ "Missing Skills: " +:+ str_or (Str.join ", " missing) "None" +:+ nl
  +:+ nl
  +:+ "Answer as a hiring manager:" +:+ nl
  +:+ "1. Why is the ATS score this value?" +:+ nl
  +:+ "2. Resume weaknesses." +:+ nl
  +:+ "3. Skills to prioritize." +:+ nl
  +:+ "4. Real projects to build for this role." +:+ nl
  +:+ "5. A realistic 60-day improvement plan." +:+ nl.

Record ai_result := { analysis_text : string }.

Definition ai_analysis (w : world) (resume_text job_description : string)
    (score : Z) (matched missing : list string) : M ai_result :=
  let prompt := ai_prompt resume_text job_description score matched missing in
  t ← openrouter_think w prompt;
  mret {| analysis_text := t |}.

(** ** DOCX update *)

(** The loop of [update_docx_resume]: the paragraph after the first
    paragraph that reads SUMMARY (and has a successor) gets the new text. *)
Fixpoint replace_summary (paragraphs : list string) (summary : string)
  : list string :=
  match paragraphs with
  | [] => []
  | p :: tl =>
      match tl with
      | [] => [p]
      | _ :: rest =>
          if String.eqb (Str.upper (Str.strip p)) "SUMMARY"
          then p :: summary :: rest
          else p :: replace_summary tl summary
      end
  end.

Definition update_docx_resume (w : world) (data : list Byte.byte) (summary : string)
  : M string :=
  _ ← emit (DocxOpen data);
  paragraphs ← lift (docx_paragraphs w data);
  let file_id := uuid4 w in
  _ ← emit (DocxSave file_id (replace_summary paragraphs summary));
  mret file_id.

(** ** The endpoint *)

Record upload := { filename : string; content : list Byte.byte }.

Module Report.
Record t := {
  score : Z;
  matched_skills : list string;
  missing_skills : list string;
  skill_scores : gmap string Z;
  ai_analysis : ai_result;
  download_id : option string
}.
End Report.

Inductive response_body : Type :=
| ErrorBody (error : string)
| ReportBody (r : Report.t).

(** [resume.filename.split(".")[-1].lower()] *)
Definition file_suffix (name : string) : string :=
  Str.lower (List.last (Str.split "." name) "").

Definition analyze_resume (w : world) (resume : upload) (job_description : string)
  : M response_body :=
  let suffix := file_suffix (filename resume) in
  if bool_decide (suffix ∉ ["pdf"; "docx"])
  then mret (ErrorBody "Only PDF and DOCX supported")
  else
    _ ← emit (TempFileWrite ("." +:+ suffix) (content resume));
    resume_text ←
      (if String.eqb suffix "pdf"
       then extract_text_from_pdf w (content resume)
       else extract_text_from_docx w (content resume));
    let resume_skills := extract_skills resume_text in
    let jd_skills := extract_skills job_description in
    let matched := matched_skills resume_skills jd_skills in
    let missing := missing_skills resume_skills jd_skills in
    score ← lift (ats_keyword_score resume_text jd_skills);
    let skill_scores := skill_scores matched jd_skills in
    download_id ←
      (if String.eqb suffix "docx"
       then id ← update_docx_resume w (content resume)
                   "Results-driven candidate aligned with job requirements.";
            mret (Some id)
       else mret None);
    ai_result ← ai_analysis w resume_text job_description score matched missing;
    mret (ReportBody
            {| Report.score := score;
               Report.matched_skills := matched;
               Report.missing_skills := missing;
               Report.skill_scores := skill_scores;
               Report.ai_analysis := ai_result;
               Report.download_id := download_id |}).

(** ** Vocabulary of the specification *)

(** [s] occurs in [text] as a case-insensitive substring: some contiguous
    piece of [text] equals [s] up to case. *)
Definition occurs_ci (s text : string) : Prop :=
  ∃ pre mid post, text = pre +:+ mid +:+ post ∧ Str.lower mid = Str.lower s.

(** The decision procedure for [occurs_ci]. *)
Definition occurs_cib (s text : string) : bool :=
  Str.contains (Str.lower s) (Str.lower text).

(** The number of target skills that occur case-insensitively in the text. *)
Definition matched_count_ci (text : string) (skills : list string) : Z :=
  Z.of_nat (length (filter (λ s, occurs_cib s text) skills)).

(** The counter inside [ats_keyword_score]. *)
Definition scorer_matched_count (resume_text : string) (jd_skills : list string) : Z :=
  py_sum ((λ _, 1) <$> filter (λ s, Str.contains s (Str.lower resume_text)) jd_skills).

(** A string without upper-case letters. *)
Definition is_lower (s : string) : Prop := Str.lower s = s.

(** [round(m / n * 100)] on exact fractions: the nearest integer to
    [100 * m / n], ties to the even one. *)
Definition round_percent (m n : Z) : Z :=
  let q := (100 * m) / n in
  let r := (100 * m) mod n in
  match (2 * r ?= n) with
  | Lt => q
  | Gt => q + 1
  | Eq => if Z.even q then q else q + 1
  end.

(** [floor(m / n * 100)] on exact fractions. *)
Definition floor_percent (m n : Z) : Z := (100 * m) / n.

(** The score as the specification words it, with rounding to nearest. *)
Definition score_rounds (text : string) (skills : list string) : Prop :=
  skills ≠ [] →
  ats_keyword_score text skills
  = Ok (round_percent (matched_count_ci text skills) (Z.of_nat (length skills))).

(** Ascending order of a list of strings. *)
Definition ascending (l : list string) : Prop := Sorted String.le l.

(** Parity of the two match computations, for one text and one target list. *)
Definition count_parity (text : string) (skills : list string) : Prop :=
  scorer_matched_count text skills
  = Z.of_nat (length (matched_skills (extract_skills text) skills)).

(** ** Sample worlds *)

(** A configured key and a service that answers 503. *)
Definition world_busy : world :=
  {| OPENROUTER_API_KEY := Some "sk-test";
     post_reply := λ _, Ok {| status_code := 503; text := "busy";
                              json_content := Raise (Exn "JSONDecodeError" "no body") |};
     pdf_pages := λ _, Ok [Some "I know Python "; None; Some "and SQL"];
     docx_paragraphs := λ _, Ok ["Name"; "Summary"; "old text"];
     uuid4 := "0000" |}.

(** No key configured. *)
Definition world_no_key : world :=
  {| OPENROUTER_API_KEY := None;
     post_reply := λ _, Raise (Exn "ConnectionError" "unreachable");
     pdf_pages := λ _, Ok [Some "docker"];
     docx_paragraphs := λ _, Ok ["docker"];
     uuid4 := "0001" |}.

(** ** Values of floats and of shift records *)

Module FloatValue.

(** A shift record has lost a nonzero bit. *)
Definition inexact (mrs : shr_record) : bool := shr_r mrs || shr_s mrs.

(** [mrs'] is [mrs] shifted right by [k] bits. *)
Definition shifted (k : Z) (mrs mrs' : shr_record) : Prop :=
  shr_m mrs' = shr_m mrs / 2 ^ k
  ∧ (inexact mrs = false → shr_m mrs mod 2 ^ k = 0 → inexact mrs' = false).

(** The value [m * 2^e] of a float, scaled by [2^1200] so that it is an
    integer for every exponent that occurs. *)
Definition sval (m e : Z) : Z := m * 2 ^ (e + 1200).

(** A positive float, or zero, whose value is at most [M * 2^E]. *)
Definition below (f : spec_float) (M E : Z) : Prop :=
  match f with
  | S754_zero false => True
  | S754_finite false m e => -1074 ≤ e ∧ sval (Zpos m) e ≤ sval M E
  | _ => False
  end.

End FloatValue.

(** The arithmetic of the last line of [ats_keyword_score]:
    [int((m / n) * 100)]. *)
Definition percent (m n : Z) : result Z :=
  q ← PyFloat.int_truediv m n;
  PyFloat.to_int (PyFloat.mul q (PyFloat.of_int 100)).

#[global] Instance spec_float_eq_dec : EqDecision spec_float.
Proof. solve_decision. Defined.
#[global] Instance exn_eq_dec : EqDecision exn.
Proof. solve_decision. Defined.
#[global] Instance result_eq_dec `{EqDecision A} : EqDecision (result A).
Proof. solve_decision. Defined.

(** ** Vocabulary of the further properties *)

(** The test of the loop in [update_docx_resume]:
    [p.text.strip().upper() == "SUMMARY"]. *)
Definition is_heading (p : string) : bool :=
  String.eqb (Str.upper (Str.strip p)) "SUMMARY".

(** The events that touch a DOCX document. *)
Definition is_docx_event (ev : event) : bool :=
  match ev with
  | DocxOpen _ | DocxSave _ _ => true
  | _ => false
  end.

(** The events that reach the critique service. *)
Definition is_post (ev : event) : bool :=
  match ev with
  | HttpPost _ => true
  | _ => false
  end.

(** The summary that [analyze_resume] writes into a DOCX resume. *)
Definition SUMMARY_TEXT : string :=
  "Results-driven candidate aligned with job requirements.".

(** The text that [extract_text_from_pdf] returns for the texts of the
    pages, [None] for a page without text. *)
Definition pdf_text (pages : list (option string)) : string :=
  Str.strip (foldl (λ text page, text +:+ str_or (default "" page) "") "" pages).

(** The text that [extract_text_from_docx] returns for the paragraphs. *)
Definition docx_text (paragraphs : list string) : string :=
  Str.strip (Str.join nl paragraphs).

(** What [openrouter_think] sends for a prompt: one POST, or nothing
    without a key. *)
Definition critique_posts (w : world) (prompt : string) : list event :=
  if key_missing (OPENROUTER_API_KEY w) then []
  else [HttpPost (critique_request w (Str.slice_to 3000 prompt))].

(** Parsers that reject the upload. *)
Definition world_corrupt : world :=
  {| OPENROUTER_API_KEY := Some "sk-test";
     post_reply := λ _, Raise (Exn "Timeout" "timed out");
     pdf_pages := λ _, Raise (Exn "PDFSyntaxError" "No /Root object");
     docx_paragraphs := λ _, Raise (Exn "PackageNotFoundError" "Package not found");
     uuid4 := "0002" |}.

(** Readable documents and a critique service that times out. *)
Definition world_timeout : world :=
  {| OPENROUTER_API_KEY := Some "sk-test";
     post_reply := λ _, Raise (Exn "Timeout" "timed out");
     pdf_pages := λ _, Ok [Some "I know Python "; None; Some "and SQL"];
     docx_paragraphs := λ _, Ok ["Jane Doe"; "Summary"; "old text"; "Docker, AWS"];
     uuid4 := "0003" |}.

(** A result that is not an exception. *)
Definition is_Ok {A} (r : result A) : Prop :=
  match r with
  | Ok _ => True
  | Raise _ => False
  end.

(** * Facts *)

(** ** Strings *)

Module StrFacts.
Import Str.

Lemma app_nil (t : string) : "" +:+ t = t.
Proof. reflexivity. Qed.

Lemma app_cons (a : ascii) (s t : string) :
  String a s +:+ t = String a (s +:+ t).
Proof. reflexivity. Qed.

Lemma app_nil_r (s : string) : s +:+ "" = s.
Proof. induction s as [|a s IH]; [done|]. by rewrite app_cons, IH. Qed.

Lemma app_assoc (s t u : string) : (s +:+ t) +:+ u = s +:+ t +:+ u.
Proof. induction s as [|a s IH]; [done|]. by rewrite !app_cons, IH. Qed.

Lemma length_app (s t : string) :
  String.length (s +:+ t) = (String.length s + String.length t)%nat.
Proof.
  induction s as [|a s IH]; [done|]. rewrite app_cons. simpl. by rewrite IH.
Qed.

Lemma lower_app (s t : string) : lower (s +:+ t) = lower s +:+ lower t.
Proof.
  induction s as [|a s IH]; [done|].
  rewrite app_cons. simpl. by rewrite IH, app_cons.
Qed.

(** A split of the folded text comes from a split of the text. *)
Lemma lower_app_inv (a b t : string) :
  lower t = a +:+ b →
  ∃ a' b', t = a' +:+ b' ∧ lower a' = a ∧ lower b' = b.
Proof.
  revert t. induction a as [|c a IH]; intros t Ht.
  - exists "", t. by rewrite !app_nil in *.
  - destruct t as [|c' t]; [done|].
    rewrite app_cons in Ht. simpl in Ht. injection Ht as Hc Ht.
    destruct (IH _ Ht) as (a' & b' & -> & Ha & Hb).
    exists (String c' a'), b'. rewrite app_cons. simpl. by rewrite Hc, Ha.
Qed.

Lemma startswith_spec (s t : string) :
  startswith s t = true ↔ ∃ post, t = s +:+ post.
Proof.
  revert t. induction s as [|a s IH]; intros t; simpl.
  - split; [|done]. intros _. by exists t.
  - destruct t as [|b t].
    + split; [done|]. intros [post Hp]. by rewrite app_cons in Hp.
    + destruct (Ascii.eqb_spec a b) as [->|Hne].
      * rewrite IH. split; intros [post Hp]; exists post.
        -- by rewrite app_cons, Hp.
        -- rewrite app_cons in Hp. by injection Hp.
      * split; [done|]. intros [post Hp]. rewrite app_cons in Hp.
        injection Hp as Hab _. by destruct Hne.
Qed.

Lemma contains_spec (s t : string) :
  contains s t = true ↔ ∃ pre post, t = pre +:+ s +:+ post.
Proof.
  induction t as [|b t IH].
  - simpl. destruct (startswith s "") eqn:Hs.
    + split; [|done]. intros _. apply startswith_spec in Hs as [post Hp].
      by exists "", post.
    + split; [done|]. intros (pre & post & Hp).
      destruct pre as [|c pre]; [|by rewrite app_cons in Hp].
      rewrite app_nil in Hp.
      assert (startswith s "" = true) by (apply startswith_spec; eauto).
      congruence.
  - cbn [contains]. destruct (startswith s (String b t)) eqn:Hs.
    + split; [|done]. intros _. apply startswith_spec in Hs as [post Hp].
      by exists "", post.
    + rewrite IH. split.
      * intros (pre & post & ->). by exists (String b pre), post.
      * intros (pre & post & Hp). destruct pre as [|c pre].
        -- rewrite app_nil in Hp.
           assert (startswith s (String b t) = true)
             by (apply startswith_spec; eauto).
           congruence.
        -- rewrite app_cons in Hp. injection Hp as _ ->. by exists pre, post.
Qed.

Lemma contains_empty (t : string) : contains "" t = true.
Proof. by destruct t. Qed.

Lemma length_slice_to (n : nat) (s : string) :
  (String.length (slice_to n s) ≤ n)%nat.
Proof.
  revert s. induction n as [|n IH]; intros [|c s]; simpl; try lia.
  specialize (IH s). lia.
Qed.

Lemma slice_to_idemp (n : nat) (s : string) :
  slice_to n (slice_to n s) = slice_to n s.
Proof.
  revert s. induction n as [|n IH]; intros [|c s]; simpl; try done.
  by rewrite IH.
Qed.

(** [s[:n]] is a prefix of [s]. *)
Lemma slice_to_prefix (n : nat) (s : string) :
  ∃ rest, s = slice_to n s +:+ rest.
Proof.
  revert s. induction n as [|n IH]; intros s.
  - exists s. by destruct s.
  - destruct s as [|c s]; [by exists ""|].
    destruct (IH s) as [rest Hr]. exists rest. simpl.
    by rewrite app_cons, <- Hr.
Qed.

End StrFacts.

(** ** Skill matcher *)

Section Matcher.

Lemma COMMON_SKILLS_lower : Forall is_lower COMMON_SKILLS.
Proof. unfold COMMON_SKILLS. repeat constructor. Qed.

Lemma vocabulary_is_lower (s : string) : s ∈ COMMON_SKILLS → is_lower s.
Proof. intros Hin. exact (proj1 (Forall_forall _ _) COMMON_SKILLS_lower s Hin). Qed.

Lemma COMMON_SKILLS_NoDup : NoDup COMMON_SKILLS.
Proof. apply (bool_decide_unpack _). by vm_compute. Qed.

Lemma occurs_cib_spec (s text : string) :
  occurs_cib s text = true ↔ occurs_ci s text.
Proof.
  unfold occurs_cib, occurs_ci. rewrite StrFacts.contains_spec. split.
  - intros (pre & post & Ht).
    apply StrFacts.lower_app_inv in Ht as (pre' & rest & -> & Hpre & Hrest).
    apply StrFacts.lower_app_inv in Hrest as (mid & post' & -> & Hmid & Hpost).
    by exists pre', mid, post'.
  - intros (pre & mid & post & -> & Hmid).
    exists (Str.lower pre), (Str.lower post).
    by rewrite !StrFacts.lower_app, Hmid.
Qed.

Lemma contains_lower_ci (s text : string) :
  is_lower s → Str.contains s (Str.lower text) = occurs_cib s text.
Proof. intros Hs. unfold occurs_cib. by rewrite Hs. Qed.

Lemma elem_of_extract_skills (s text : string) :
  s ∈ extract_skills text ↔
  s ∈ COMMON_SKILLS ∧ Str.contains s (Str.lower text) = true.
Proof.
  unfold extract_skills. rewrite list_elem_of_filter, Is_true_true. tauto.
Qed.

Lemma extract_skills_NoDup (text : string) : NoDup (extract_skills text).
Proof. apply NoDup_filter, COMMON_SKILLS_NoDup. Qed.

Lemma extract_skills_subseteq (text : string) :
  extract_skills text ⊆ COMMON_SKILLS.
Proof. intros s Hs. by apply elem_of_extract_skills in Hs as [? _]. Qed.

End Matcher.

(** C4. The matcher returns exactly the vocabulary entries that occur in the
    text as a case-insensitive substring; so its output is a subset of the
    vocabulary, and the empty text gives the empty list. *)
Theorem extract_skills_exact (text : string) :
  (∀ s, s ∈ extract_skills text ↔ s ∈ COMMON_SKILLS ∧ occurs_ci s text)
  ∧ extract_skills text ⊆ COMMON_SKILLS
  ∧ extract_skills "" = [].
Proof.
  split; [|split].
  - intros s. rewrite elem_of_extract_skills. split.
    + intros [Hin Hc]. split; [done|]. apply occurs_cib_spec.
      by rewrite <- contains_lower_ci by by apply vocabulary_is_lower.
    + intros [Hin Hc]. split; [done|]. apply occurs_cib_spec in Hc.
      by rewrite contains_lower_ci by by apply vocabulary_is_lower.
  - apply extract_skills_subseteq.
  - reflexivity.
Qed.

(** ** Report assembly *)

Section ReportFacts.
Implicit Types (X : gset string) (resume_skills jd_skills : list string).

Lemma sorted_perm X : sorted X ≡ₚ elements X.
Proof. apply merge_sort_Permutation. Qed.

Lemma elem_of_sorted X (s : string) : s ∈ sorted X ↔ s ∈ X.
Proof. by rewrite sorted_perm, elem_of_elements. Qed.

Lemma list_to_set_sorted X : list_to_set (sorted X) = X.
Proof. apply set_eq. intros s. by rewrite elem_of_list_to_set, elem_of_sorted. Qed.

Lemma length_sorted X : length (sorted X) = size X.
Proof. by rewrite sorted_perm. Qed.

Lemma sorted_ascending X : ascending (sorted X).
Proof. apply (Sorted_merge_sort String.le). Qed.

Lemma elem_of_matched_skills resume_skills jd_skills (s : string) :
  s ∈ matched_skills resume_skills jd_skills ↔ s ∈ resume_skills ∧ s ∈ jd_skills.
Proof. unfold matched_skills. rewrite elem_of_sorted. set_solver. Qed.

Lemma elem_of_missing_skills resume_skills jd_skills (s : string) :
  s ∈ missing_skills resume_skills jd_skills ↔ s ∈ jd_skills ∧ s ∉ resume_skills.
Proof. unfold missing_skills. rewrite elem_of_sorted. set_solver. Qed.

Lemma py_sum_ones {A} (l : list A) :
  py_sum ((λ _, 1) <$> l) = Z.of_nat (length l).
Proof.
  unfold py_sum. enough (∀ acc, foldl Z.add acc ((λ _, 1) <$> l)
                                = acc + Z.of_nat (length l)) as H by apply H.
  induction l as [|x l IH]; intros acc; simpl; [lia|]. rewrite IH. lia.
Qed.

Lemma lookup_skill_scores (matched jd_skills : list string) (s : string) :
  skill_scores matched jd_skills !! s
  = if bool_decide (s ∈ jd_skills)
    then Some (if bool_decide (s ∈ matched) then 100 else 0)
    else None.
Proof.
  unfold skill_scores.
  enough (∀ d : gmap string Z,
    foldl (λ d s, <[s := if bool_decide (s ∈ matched) then 100 else 0]> d) d jd_skills !! s
    = if bool_decide (s ∈ jd_skills)
      then Some (if bool_decide (s ∈ matched) then 100 else 0)
      else d !! s) as H.
  { rewrite H. by rewrite lookup_empty. }
  induction jd_skills as [|x l IH]; intros d; cbn [foldl].
  - by rewrite (bool_decide_eq_false_2 (s ∈ [])) by set_solver.
  - rewrite IH. destruct (decide (s ∈ l)) as [Hl|Hl].
    + rewrite (bool_decide_eq_true_2 _ Hl).
      by rewrite (bool_decide_eq_true_2 (s ∈ x :: l)) by set_solver.
    + rewrite (bool_decide_eq_false_2 _ Hl). destruct (decide (x = s)) as [->|Hx].
      * rewrite lookup_insert_eq.
        by rewrite (bool_decide_eq_true_2 (s ∈ s :: l)) by set_solver.
      * rewrite lookup_insert_ne by done.
        rewrite (bool_decide_eq_false_2 (s ∈ x :: l)); [done|].
        rewrite elem_of_cons. intros [->|?]; done.
Qed.

(** On a duplicate-free list of vocabulary entries the scorer's count is
    the size of the matched list. *)
Lemma count_parity_vocabulary (text : string) jd_skills :
  NoDup jd_skills → jd_skills ⊆ COMMON_SKILLS → count_parity text jd_skills.
Proof.
  intros Hnd Hsub. unfold count_parity, scorer_matched_count, matched_skills.
  rewrite py_sum_ones. f_equal. rewrite length_sorted.
  rewrite <- (size_list_to_set (C := gset string)
                (filter (λ s, Str.contains s (Str.lower text)) jd_skills))
    by by apply NoDup_filter.
  f_equal. apply set_eq. intros s.
  rewrite elem_of_list_to_set, list_elem_of_filter, elem_of_intersection,
    !elem_of_list_to_set, elem_of_extract_skills, Is_true_true.
  specialize (Hsub s). tauto.
Qed.

End ReportFacts.

(** C2 (as stated): the matcher's result need not be ascending. *)
Lemma extract_skills_not_ascending :
  ¬ ascending (extract_skills "java and python").
Proof.
  change (extract_skills "java and python") with ["python"; "java"].
  intros H. inversion H as [|? ? _ Hhd]; subst.
  inversion Hhd as [|? ? Hle]; subst. exact Hle.
Qed.

(** C2 (amended): the matcher lists the matched skills in the vocabulary's
    order, as a subsequence of the vocabulary; the ascending order is that of
    the report's matched and missing lists. *)
Theorem extract_skills_vocabulary_order (text job_description : string) :
  extract_skills text `sublist_of` COMMON_SKILLS
  ∧ ascending (matched_skills (extract_skills text) (extract_skills job_description))
  ∧ ascending (missing_skills (extract_skills text) (extract_skills job_description)).
Proof.
  split; [|split].
  - apply sublist_filter.
  - apply sorted_ascending.
  - apply sorted_ascending.
Qed.

(** C3. The matched and the missing skills partition the job-description
    skills: their union is the job-description skill set and they share no
    skill. *)
Theorem matched_missing_partition (resume_skills jd_skills : list string) :
  (list_to_set (matched_skills resume_skills jd_skills)
   ∪ list_to_set (missing_skills resume_skills jd_skills) : gset string)
  = list_to_set jd_skills
  ∧ (list_to_set (matched_skills resume_skills jd_skills)
     ∩ list_to_set (missing_skills resume_skills jd_skills) : gset string)
    = ∅.
Proof.
  unfold matched_skills, missing_skills. rewrite !list_to_set_sorted.
  split; apply set_eq; intros s.
  - rewrite elem_of_union, elem_of_intersection, elem_of_difference.
    destruct (decide (s ∈ (list_to_set resume_skills : gset string))); tauto.
  - rewrite elem_of_intersection, elem_of_intersection, elem_of_difference,
      elem_of_empty. tauto.
Qed.

(** C7. The per-skill score map has exactly the job-description skills as
    keys; a key is mapped to 100 when it is in the matched list and to 0
    otherwise. *)
Theorem skill_scores_binary (resume_skills jd_skills : list string) (s : string) :
  let matched := matched_skills resume_skills jd_skills in
  dom (skill_scores matched jd_skills) = list_to_set jd_skills
  ∧ skill_scores matched jd_skills !! s
    = if bool_decide (s ∈ jd_skills)
      then Some (if bool_decide (s ∈ matched) then 100 else 0)
      else None.
Proof.
  intros matched. split; [|apply lookup_skill_scores].
  apply set_eq. intros k.
  rewrite elem_of_dom, lookup_skill_scores, elem_of_list_to_set.
  case_bool_decide; split; intros H'; done.
Qed.

(** C5 (as stated): on a target skill outside the vocabulary the scorer
    counts a match that the matched list does not have. *)
Lemma count_parity_fails_outside_vocabulary :
  ¬ count_parity "ten years of cobol" ["cobol"].
Proof. unfold count_parity. by vm_compute. Qed.

(** C5 (amended): for every duplicate-free target list of vocabulary entries
    (such as the matcher's output on a job description) the scorer's count
    equals the number of matched skills. *)
Theorem scorer_count_parity (text : string) (jd_skills : list string) :
  NoDup jd_skills → jd_skills ⊆ COMMON_SKILLS →
  scorer_matched_count text jd_skills
  = Z.of_nat (length (matched_skills (extract_skills text) jd_skills)).
Proof. apply count_parity_vocabulary. Qed.

Lemma scorer_count_parity_witness :
  scorer_matched_count "I know Python and SQL" (extract_skills "Need Python, Java and SQL")
  = Z.of_nat (length (matched_skills (extract_skills "I know Python and SQL")
                        (extract_skills "Need Python, Java and SQL"))).
Proof.
  apply (scorer_count_parity "I know Python and SQL"
           (extract_skills "Need Python, Java and SQL")).
  - apply extract_skills_NoDup.
  - apply extract_skills_subseteq.
Defined.

(** The parity in the pipeline, where the target list is extracted from the
    job description. *)
Corollary scorer_count_parity_pipeline (text job_description : string) :
  count_parity text (extract_skills job_description).
Proof.
  apply count_parity_vocabulary;
    [apply extract_skills_NoDup | apply extract_skills_subseteq].
Qed.

(** ** The critique call *)

Section Critique.
Variable w : world.

(** The trace grows by the one POST, or not at all without a key. *)
Lemma openrouter_think_run (prompt : string) (tr : list event) :
  openrouter_think w prompt tr =
  if key_missing (OPENROUTER_API_KEY w)
  then (Ok "AI analysis unavailable (API key not configured).", tr)
  else
    let req := critique_request w (Str.slice_to 3000 prompt) in
    (Ok match post_reply w req with
        | Raise e => "AI error: " +:+ exn_str e
        | Ok r =>
            if negb (status_code r =? 200) then "OpenRouter error: " +:+ text r
            else match json_content r with
                 | Ok c => Str.strip c
                 | Raise e => "AI error: " +:+ exn_str e
                 end
        end,
     tr ++ [HttpPost req]).
Proof.
  unfold openrouter_think. destruct (key_missing _); [done|].
  unfold try_except, requests_post, mbind, M_bind, emit, lift, mret, M_ret.
  cbn beta iota. destruct (post_reply w _) as [r|e]; [|done].
  destruct (negb _); [done|]. by destruct (json_content r).
Qed.

Lemma ai_analysis_run (resume_text job_description : string) (score : Z)
    (matched missing : list string) (tr : list event) :
  ai_analysis w resume_text job_description score matched missing tr =
  let r := openrouter_think w
             (ai_prompt resume_text job_description score matched missing) tr in
  (match r.1 with
   | Ok t => Ok {| analysis_text := t |}
   | Raise e => Raise e
   end, r.2).
Proof.
  unfold ai_analysis, mbind, M_bind. cbn zeta.
  by destruct (openrouter_think w _ tr) as [[t|e] tr'].
Qed.

End Critique.

(** C8. The critique call returns a string on every path: the placeholder
    when the API key is missing, and an explanatory string when the POST
    raises, answers with a status other than 200, or its JSON cannot be
    read. *)
Theorem openrouter_think_never_raises (w : world) (prompt : string)
    (tr : list event) :
  ∃ s tr', openrouter_think w prompt tr = (Ok s, tr')
    ∧ (key_missing (OPENROUTER_API_KEY w) = true →
       s = "AI analysis unavailable (API key not configured)." ∧ tr' = tr)
    ∧ (key_missing (OPENROUTER_API_KEY w) = false →
       match post_reply w (critique_request w (Str.slice_to 3000 prompt)) with
       | Raise e => s = "AI error: " +:+ exn_str e
       | Ok r =>
           (status_code r ≠ 200 → s = "OpenRouter error: " +:+ text r)
           ∧ (status_code r = 200 →
              match json_content r with
              | Raise e => s = "AI error: " +:+ exn_str e
              | Ok c => s = Str.strip c
              end)
       end).
Proof.
  rewrite openrouter_think_run.
  destruct (key_missing (OPENROUTER_API_KEY w)) eqn:Hk.
  - eexists _, _. split; [done|]. split; [done|]. intros; discriminate.
  - eexists _, _. split; [done|]. split; [intros; discriminate|]. intros _.
    destruct (post_reply w _) as [r|e]; [|done]. split.
    + intros Hs. by rewrite (proj2 (Z.eqb_neq _ _) Hs).
    + intros Hs. rewrite Hs. cbn. by destruct (json_content r).
Qed.

Lemma openrouter_think_never_raises_witness :
  ∃ tr', openrouter_think world_busy "critique this" []
         = (Ok "OpenRouter error: busy", tr').
Proof.
  destruct (openrouter_think_never_raises world_busy "critique this" [])
    as (s & tr' & Hrun & _ & Hcase).
  exists tr'. rewrite Hrun. f_equal. f_equal.
  specialize (Hcase eq_refl). cbn in Hcase. destruct Hcase as [Hne _].
  apply Hne. discriminate.
Defined.

(** ** The endpoint *)

(** C9. An upload whose file name does not end in [pdf] or [docx] (after
    the last dot, case folded) is answered with the error record; nothing is
    written, parsed, scored or sent. *)
Theorem analyze_resume_unsupported (w : world) (resume : upload)
    (job_description : string) (tr : list event) :
  file_suffix (filename resume) ∉ ["pdf"; "docx"] →
  analyze_resume w resume job_description tr
  = (Ok (ErrorBody "Only PDF and DOCX supported"), tr).
Proof.
  intros Hs. unfold analyze_resume. cbn zeta.
  by rewrite (bool_decide_eq_true_2 _ Hs).
Qed.

Lemma analyze_resume_unsupported_witness :
  analyze_resume world_busy {| filename := "resume.final.TXT"; content := [] |}
    "Need Python" []
  = (Ok (ErrorBody "Only PDF and DOCX supported"), []).
Proof.
  apply (analyze_resume_unsupported world_busy
           {| filename := "resume.final.TXT"; content := [] |} "Need Python" []).
  apply (bool_decide_unpack _). by vm_compute.
Defined.

(** C10. The prompt embeds only the first 800 characters of the job
    description and of the resume text, and what is posted to the critique
    service is the first 3000 characters of that prompt. *)
Theorem critique_input_bounded (w : world) (resume_text job_description : string)
    (score : Z) (matched missing : list string) (tr : list event) :
  let prompt := ai_prompt resume_text job_description score matched missing in
  prompt = ai_prompt (Str.slice_to 800 resume_text)
             (Str.slice_to 800 job_description) score matched missing
  ∧ (String.length (Str.slice_to 800 resume_text) ≤ 800)%nat
  ∧ (String.length (Str.slice_to 800 job_description) ≤ 800)%nat
  ∧ ∃ sent,
      (ai_analysis w resume_text job_description score matched missing tr).2
      = tr ++ sent
      ∧ Forall (λ ev, ∃ req, ev = HttpPost req
                        ∧ req_user req = Str.slice_to 3000 prompt
                        ∧ (String.length (req_user req) ≤ 3000)%nat) sent.
Proof.
  intros prompt. split; [|split; [|split]].
  - unfold prompt, ai_prompt. by rewrite !StrFacts.slice_to_idemp.
  - apply StrFacts.length_slice_to.
  - apply StrFacts.length_slice_to.
  - rewrite ai_analysis_run. cbn zeta. rewrite openrouter_think_run.
    destruct (key_missing _).
    + exists []. by rewrite app_nil_r.
    + eexists [_]. split; [done|]. constructor; [|done].
      eexists. split; [done|]. split; [done|]. apply StrFacts.length_slice_to.
Qed.

(** ** Floats *)

Module PyFloatFacts.
Import FloatValue.

(** *** Binary digits *)

Lemma digits2_pos_bounds (p : positive) :
  2 ^ (Zpos (digits2_pos p) - 1) ≤ Zpos p < 2 ^ Zpos (digits2_pos p).
Proof.
  induction p as [p IH|p IH|]; cbn [digits2_pos].
  - rewrite Pos2Z.inj_succ, Z.pow_succ_r by lia.
    replace (Z.succ (Zpos (digits2_pos p)) - 1) with (Z.succ (Zpos (digits2_pos p) - 1)) by lia.
    rewrite Z.pow_succ_r by lia. lia.
  - rewrite Pos2Z.inj_succ, Z.pow_succ_r by lia.
    replace (Z.succ (Zpos (digits2_pos p)) - 1) with (Z.succ (Zpos (digits2_pos p) - 1)) by lia.
    rewrite Z.pow_succ_r by lia. lia.
  - cbn. lia.
Qed.

Lemma Zdigits2_bounds (m : Z) :
  0 < m → 2 ^ (Zdigits2 m - 1) ≤ m < 2 ^ Zdigits2 m.
Proof. destruct m as [|p|p]; try lia. intros _. apply digits2_pos_bounds. Qed.

Lemma Zdigits2_pos (m : Z) : 0 < m → 0 < Zdigits2 m.
Proof. destruct m; cbn; lia. Qed.

(** A number below [2^k] has at most [k] digits. *)
Lemma Zdigits2_le (m k : Z) : 0 ≤ m → 0 ≤ k → m < 2 ^ k → Zdigits2 m ≤ k.
Proof.
  intros Hm Hk Hlt. destruct (Z.eq_dec m 0) as [->|Hne]; [done|].
  destruct (Zdigits2_bounds m) as [Hlo _]; [lia|].
  destruct (Z.le_gt_cases (Zdigits2 m) k) as [|Hgt]; [done|].
  assert (2 ^ k ≤ 2 ^ (Zdigits2 m - 1)) by (apply Z.pow_le_mono_r; lia). lia.
Qed.

(** *** Right shifts with sticky bits *)

Lemma shifted_1 (mrs : shr_record) :
  0 ≤ shr_m mrs → shifted 1 mrs (shr_1 mrs).
Proof.
  destruct mrs as [m r s]. cbn [shr_m]. intros Hm. unfold shifted, inexact.
  change (2 ^ 1) with 2.
  destruct m as [|[p|p|]|p]; cbn [shr_1 shr_m shr_r shr_s]; try lia.
  - split; [done|]. by intros ->.
  - split; [rewrite Pos2Z.inj_xI; apply Z.div_unique with 1; lia|].
    intros _ Hmod. rewrite Pos2Z.inj_xI in Hmod.
    assert ((2 * Zpos p + 1) mod 2 = 1) by (symmetry; apply Z.mod_unique with (Zpos p); lia).
    lia.
  - split; [rewrite Pos2Z.inj_xO; apply Z.div_unique with 0; lia|].
    by intros ->.
  - split; [done|]. intros _ Hmod. done.
Qed.

Lemma shifted_trans (a b : Z) (x y z : shr_record) :
  0 ≤ a → 0 ≤ b → 0 ≤ shr_m x →
  shifted a x y → shifted b y z → shifted (a + b) x z.
Proof.
  intros Ha Hb Hx [Hy1 Hy2] [Hz1 Hz2].
  assert (0 < 2 ^ a) by (apply Z.pow_pos_nonneg; lia).
  assert (0 < 2 ^ b) by (apply Z.pow_pos_nonneg; lia).
  split.
  - rewrite Hz1, Hy1, Z.pow_add_r by lia. apply Z.div_div; lia.
  - intros Hix Hmod. rewrite Z.pow_add_r in Hmod by lia.
    rewrite Z.rem_mul_r in Hmod by lia.
    pose proof (Z.mod_pos_bound (shr_m x) (2 ^ a)).
    pose proof (Z.mod_pos_bound (shr_m x / 2 ^ a) (2 ^ b)).
    apply Hz2.
    + apply Hy2; [done|]. nia.
    + rewrite Hy1. nia.
Qed.

Lemma shifted_nonneg (k : Z) (x y : shr_record) :
  0 ≤ shr_m x → shifted k x y → 0 ≤ shr_m y.
Proof.
  intros Hx [-> _]. destruct (Z.le_gt_cases 0 k) as [Hk|Hk].
  - apply Z.div_pos; [done|]. apply Z.pow_pos_nonneg; lia.
  - rewrite Z.pow_neg_r by lia. by rewrite Z.div_0_r.
Qed.

Lemma shifted_iter_pos (p : positive) (mrs : shr_record) :
  0 ≤ shr_m mrs → shifted (Zpos p) mrs (SpecFloat.iter_pos shr_1 p mrs).
Proof.
  revert mrs. induction p as [p IH|p IH|]; intros mrs Hm; cbn [SpecFloat.iter_pos].
  - pose proof (shifted_1 mrs Hm) as H1.
    pose proof (shifted_nonneg _ _ _ Hm H1) as Hm1.
    pose proof (IH _ Hm1) as H2.
    pose proof (shifted_nonneg _ _ _ Hm1 H2) as Hm2.
    pose proof (IH _ Hm2) as H3.
    replace (Zpos p~1) with (1 + (Zpos p + Zpos p)) by lia.
    eapply shifted_trans; [lia|lia|done|exact H1|].
    eapply shifted_trans; [lia|lia|done|exact H2|exact H3].
  - pose proof (IH _ Hm) as H2.
    pose proof (shifted_nonneg _ _ _ Hm H2) as Hm2.
    pose proof (IH _ Hm2) as H3.
    replace (Zpos p~0) with (Zpos p + Zpos p) by lia.
    eapply shifted_trans; [lia|lia|done|exact H2|exact H3].
  - by apply shifted_1.
Qed.

Lemma shr_record_of_loc_m (m : Z) (l : location) :
  shr_m (shr_record_of_loc m l) = m.
Proof. by destruct l as [|[]]. Qed.

Lemma loc_of_shr_record_of_loc (m : Z) (l : location) :
  loc_of_shr_record (shr_record_of_loc m l) = l.
Proof. by destruct l as [|[]]. Qed.

Lemma round_nearest_even_exact (mrs : shr_record) :
  inexact mrs = false →
  round_nearest_even (shr_m mrs) (loc_of_shr_record mrs) = shr_m mrs.
Proof. by destruct mrs as [m [] []]. Qed.

Lemma round_nearest_even_bounds (m : Z) (l : location) :
  m ≤ round_nearest_even m l ≤ m + 1.
Proof. destruct l as [|[]]; cbn; try lia. destruct (Z.even m); lia. Qed.

(** *** Scaled values *)

Lemma sval_mono (a b e : Z) : a ≤ b → sval a e ≤ sval b e.
Proof.
  intros Hab. unfold sval. apply Z.mul_le_mono_nonneg_r; [|done].
  apply Z.pow_nonneg. lia.
Qed.

Lemma sval_cancel (a b e : Z) : -1200 ≤ e → sval a e ≤ sval b e → a ≤ b.
Proof.
  intros He. unfold sval. apply Z.mul_le_mono_pos_r.
  apply Z.pow_pos_nonneg; lia.
Qed.

Lemma sval_shift (m e k : Z) :
  -1200 ≤ e → 0 ≤ k → sval m (e + k) = sval (m * 2 ^ k) e.
Proof.
  intros He Hk. unfold sval.
  replace (e + k + 1200) with (k + (e + 1200)) by lia.
  rewrite Z.pow_add_r by lia. lia.
Qed.

Lemma sval_pow (a e : Z) : 0 ≤ a → -1200 ≤ e → sval (2 ^ a) e = 2 ^ (a + e + 1200).
Proof.
  intros Ha He. unfold sval. rewrite <- Z.pow_add_r by lia. f_equal. lia.
Qed.

Lemma pow2_le (a b : Z) : 0 ≤ a → a ≤ b → 2 ^ a ≤ 2 ^ b.
Proof. intros. apply Z.pow_le_mono_r; lia. Qed.

Lemma pow2_lt_inv (a b : Z) : 0 ≤ b → 2 ^ a < 2 ^ b → a < b.
Proof. intros Hb. apply Z.pow_lt_mono_r_iff; lia. Qed.

(** *** Rounding *)

Import PyFloat FloatValue.

Lemma fexp_eq (e : Z) : fexp prec emax e = Z.max (e - 53) (-1074).
Proof. reflexivity. Qed.

Lemma shr_fexp_spec (mx ex : Z) (lx : location) :
  0 ≤ mx →
  let e' := Z.max ex (fexp prec emax (Zdigits2 mx + ex)) in
  ∃ mrs', shr_fexp prec emax mx ex lx = (mrs', e')
          ∧ shifted (e' - ex) (shr_record_of_loc mx lx) mrs'.
Proof.
  intros Hm e'. unfold shr_fexp, shr.
  destruct (fexp prec emax (Zdigits2 mx + ex) - ex) as [|p|p] eqn:Hk.
  - exists (shr_record_of_loc mx lx). replace e' with ex by lia.
    split; [done|]. rewrite Z.sub_diag. split; [by rewrite Z.div_1_r|done].
  - exists (SpecFloat.iter_pos shr_1 p (shr_record_of_loc mx lx)).
    replace e' with (ex + Zpos p) by lia. split; [done|].
    replace (ex + Zpos p - ex) with (Zpos p) by lia.
    apply shifted_iter_pos. by rewrite shr_record_of_loc_m.
  - exists (shr_record_of_loc mx lx). replace e' with ex by lia.
    split; [done|]. rewrite Z.sub_diag. split; [by rewrite Z.div_1_r|done].
Qed.

(** The second normalisation in [binary_round_aux] keeps the value: only
    a mantissa that rounding carried up to [2^53] is shifted, by one bit. *)
Lemma renormalize (mr e' : Z) :
  0 ≤ mr ≤ 2 ^ 53 → -1074 ≤ e' →
  ∃ mrs'' e'', shr_fexp prec emax mr e' loc_Exact = (mrs'', e'')
    ∧ 0 ≤ shr_m mrs''
    ∧ sval (shr_m mrs'') e'' = sval mr e'
    ∧ (e'' = e' ∨ (mr = 2 ^ 53 ∧ e'' = e' + 1)).
Proof.
  intros Hmr He. destruct (Z.eq_dec mr (2 ^ 53)) as [->|Hne].
  - unfold shr_fexp. change (Zdigits2 (2 ^ 53)) with 54. rewrite fexp_eq.
    replace (Z.max (54 + e' - 53) (-1074) - e') with 1 by lia.
    eexists _, _. split; [reflexivity|]. cbn [shr_m]. split; [done|].
    split; [|by right].
    change (2 ^ 53) with (2 ^ 52 * 2 ^ 1).
    rewrite <- sval_shift by lia. done.
  - unfold shr_fexp, shr.
    assert (Zdigits2 mr ≤ 53) by (apply Zdigits2_le; lia).
    destruct (fexp prec emax (Zdigits2 mr + e') - e') as [|p|p] eqn:Hk.
    + eexists _, _. split; [reflexivity|]. cbn. split; [lia|]. split; [done|by left].
    + rewrite fexp_eq in Hk. lia.
    + eexists _, _. split; [reflexivity|]. cbn. split; [lia|]. split; [done|by left].
Qed.

(** The first normalisation and the rounding to nearest stay at or below
    a representable bound [M * 2^E] that the exact value does not exceed. *)
Lemma round_step (mx ex : Z) (lx : location) (M E : Z) :
  0 ≤ mx → -1200 ≤ ex ≤ 0 →
  2 ^ 52 ≤ M < 2 ^ 53 → -1074 ≤ E ≤ 971 →
  (lx = loc_Exact ∧ sval mx ex ≤ sval M E) ∨ sval (mx + 1) ex ≤ sval M E →
  ∃ mrs' e', shr_fexp prec emax mx ex lx = (mrs', e')
    ∧ let mr := round_nearest_even (shr_m mrs') (loc_of_shr_record mrs') in
      0 ≤ mr ≤ 2 ^ 53 ∧ -1074 ≤ e' ≤ 971 ∧ sval mr e' ≤ sval M E
      ∧ (mr = 2 ^ 53 → e' + 1 ≤ 971).
Proof.
  intros Hmx Hex HM HE Hle.
  destruct (shr_fexp_spec mx ex lx Hmx) as (mrs' & Heq & Hm1 & Hexact).
  rewrite shr_record_of_loc_m in Hm1, Hexact.
  set (d := Zdigits2 mx) in *. rewrite fexp_eq in *.
  set (e' := Z.max ex (Z.max (d + ex - 53) (-1074))) in *.
  set (k := e' - ex) in *.
  assert (0 ≤ k) as Hk by lia.
  assert (0 < 2 ^ k) as Hpk by (apply Z.pow_pos_nonneg; lia).
  assert (sval mx ex ≤ sval M E) as Hweak.
  { destruct Hle as [[_ H]|H]; [done|].
    etrans; [|exact H]. apply sval_mono. lia. }
  (* the shifted mantissa has at most 53 digits *)
  assert (0 ≤ shr_m mrs' < 2 ^ 53) as Hm1b.
  { rewrite Hm1. split; [apply Z.div_pos; lia|].
    apply Z.div_lt_upper_bound; [done|].
    destruct (Z.eq_dec mx 0) as [->|Hne]; [lia|].
    destruct (Zdigits2_bounds mx) as [_ Hhi]; [lia|]. fold d in Hhi.
    pose proof (Zdigits2_pos mx ltac:(lia)) as Hd. fold d in Hd.
    rewrite <- Z.pow_add_r by lia.
    eapply Z.lt_le_trans; [exact Hhi|]. apply pow2_le; lia. }
  pose proof (round_nearest_even_bounds (shr_m mrs') (loc_of_shr_record mrs')) as Hr.
  exists mrs', e'. split; [done|]. cbn zeta.
  set (mr := round_nearest_even (shr_m mrs') (loc_of_shr_record mrs')) in *.
  (* the bound, together with the place of [e'] relative to [E] *)
  assert (sval mr e' ≤ sval M E ∧ (e' = ex ∨ e' ≤ E)) as [Hb Hpos].
  { destruct (Z.eq_dec k 0) as [Hk0|Hk0].
    - (* no shift *)
      assert (e' = ex) as He' by lia. split; [|by left]. rewrite He'.
      assert (shr_m mrs' = mx) as Hmm by (rewrite Hm1, Hk0; apply Z.div_1_r).
      destruct Hle as [[-> H]|H].
      + assert (mr = mx) as ->; [|done].
        unfold mr. rewrite round_nearest_even_exact; [done|].
        apply Hexact; [done|]. rewrite Hk0. apply Z.mod_1_r.
      + etrans; [|exact H]. apply sval_mono. lia.
    - (* a shift by [k > 0] bits: [e'] is the canonical exponent *)
      assert (e' = Z.max (d + ex - 53) (-1074)) as He' by lia.
      assert (e' = ex + k) as Hek by lia.
      destruct (Z.lt_trichotomy e' E) as [Hlt|[Heq'|Hgt]].
      + split; [|right; lia].
        etrans; [apply (sval_mono _ (2 ^ 53)); lia|].
        etrans; [|apply (sval_mono (2 ^ 52)); lia].
        rewrite !sval_pow by lia. apply pow2_le; lia.
      + split; [|right; lia].
        assert (sval M E = sval (M * 2 ^ k) ex) as HME.
        { rewrite <- Heq', Hek. apply sval_shift; lia. }
        assert (sval mr e' = sval (mr * 2 ^ k) ex) as Hmr'.
        { rewrite Hek. apply sval_shift; lia. }
        rewrite HME in Hle, Hweak. rewrite HME, Hmr'. apply sval_mono.
        apply sval_cancel in Hweak; [|lia].
        destruct Hle as [[-> _]|H].
        * assert (shr_m mrs' ≤ M) as HmM.
          { rewrite Hm1. apply Z.div_le_upper_bound; lia. }
          destruct (Z.eq_dec (shr_m mrs') M) as [HeqM|HneM].
          -- assert (mx = M * 2 ^ k) as Hmx'.
             { pose proof (Z.mul_div_le mx (2 ^ k) Hpk). rewrite <- Hm1, HeqM in *. lia. }
             assert (mr = shr_m mrs') as Hmr.
             { unfold mr. apply round_nearest_even_exact, Hexact; [done|].
               rewrite Hmx'. apply Z.mod_mul. lia. }
             rewrite Hmr, HeqM. lia.
          -- apply Z.mul_le_mono_nonneg_r; lia.
        * apply sval_cancel in H; [|lia].
          assert (shr_m mrs' < M) as HmM.
          { rewrite Hm1. apply Z.div_lt_upper_bound; lia. }
          apply Z.mul_le_mono_nonneg_r; lia.
      + exfalso.
        assert (e' = d + ex - 53) as Hcanon by lia.
        assert (0 < mx) as Hpos.
        { destruct (Z.eq_dec mx 0) as [->|]; [|lia]. cbn in d. lia. }
        destruct (Zdigits2_bounds mx Hpos) as [Hlo _]. fold d in Hlo.
        pose proof (Zdigits2_pos mx Hpos) as Hd. fold d in Hd.
        assert (sval (2 ^ (d - 1)) ex ≤ sval mx ex) as H1 by by apply sval_mono.
        assert (sval M E < sval (2 ^ 53) E) as H2.
        { unfold sval. apply Z.mul_lt_mono_pos_r; [|lia].
          apply Z.pow_pos_nonneg; lia. }
        rewrite sval_pow in H1, H2 by lia.
        assert (2 ^ (d - 1 + ex + 1200) < 2 ^ (53 + E + 1200)) as H3 by lia.
        apply pow2_lt_inv in H3; lia. }
  split; [lia|]. split; [|split; [done|]].
  - destruct Hpos; lia.
  - intros Hcarry. destruct Hpos as [->|Hpos]; [lia|].
    destruct (Z.eq_dec e' E) as [HeE|]; [|lia].
    rewrite Hcarry, HeE in Hb. apply sval_cancel in Hb; lia.
Qed.

Lemma binary_round_aux_below (mx ex : Z) (lx : location) (M E : Z) :
  0 ≤ mx → -1200 ≤ ex ≤ 0 →
  2 ^ 52 ≤ M < 2 ^ 53 → -1074 ≤ E ≤ 971 →
  (lx = loc_Exact ∧ sval mx ex ≤ sval M E) ∨ sval (mx + 1) ex ≤ sval M E →
  below (binary_round_aux prec emax false mx ex lx) M E.
Proof.
  intros Hmx Hex HM HE Hle.
  destruct (round_step mx ex lx M E Hmx Hex HM HE Hle)
    as (mrs' & e' & Heq1 & Hmr & He' & Hb & Hcarry).
  destruct (renormalize _ e' Hmr ltac:(lia))
    as (mrs'' & e'' & Heq2 & Hm'' & Hval & Hcase).
  unfold binary_round_aux. rewrite Heq1, Heq2.
  destruct (shr_m mrs'') as [|p|p] eqn:Hp; [done| |lia].
  assert (e'' ≤ 971) as He''.
  { destruct Hcase as [->|[Hc ->]]; [lia|]. by apply Hcarry. }
  rewrite (proj2 (Z.leb_le e'' (emax - prec))) by (change (emax - prec) with 971; lia).
  split; [destruct Hcase as [->|[_ ->]]; lia|]. by rewrite Hval.
Qed.

(** *** The quotient of two integers *)

Lemma new_location_0 (n : Z) : new_location n 0 = loc_Exact.
Proof. unfold new_location. by destruct (Z.even n). Qed.

(** [m / n] for [0 < m ≤ n] is a double that is at most 1. *)
Lemma div_below_one (m n : positive) :
  Zpos m ≤ Zpos n →
  below (SFdiv prec emax (S754_finite false m 0) (S754_finite false n 0))
    (2 ^ 52) (-52).
Proof.
  intros Hmn. unfold SFdiv, SFdiv_core_binary. rewrite !Z.add_0_r, !Z.sub_0_r.
  rewrite fexp_eq.
  set (e' := Z.min (Z.max (Zdigits2 (Zpos m) - Zdigits2 (Zpos n) - 53) (-1074)) 0).
  set (s := - e').
  replace (0 - e') with s by lia.
  assert (0 ≤ s) as Hs by lia.
  assert (0 < 2 ^ s) as Hps by (apply Z.pow_pos_nonneg; lia).
  assert (match s with
          | 0 => Zpos m
          | Zpos _ => Z.shiftl (Zpos m) s
          | Zneg _ => 0
          end = Zpos m * 2 ^ s) as ->.
  { destruct s as [|p|p] eqn:Hsp; [lia| |lia]. by rewrite Z.shiftl_mul_pow2. }
  pose proof (Z.div_eucl_eq (Zpos m * 2 ^ s) (Zpos n) ltac:(lia)) as Hdm.
  pose proof (Z.mod_pos_bound (Zpos m * 2 ^ s) (Zpos n) ltac:(lia)) as Hmod.
  unfold Z.modulo in Hmod.
  destruct (Z.div_eucl (Zpos m * 2 ^ s) (Zpos n)) as [q r].
  cbn [xorb].
  assert (0 ≤ q) as Hq by nia.
  apply binary_round_aux_below; [done|lia|lia|lia|].
  rewrite !sval_pow by lia.
  destruct (Z.eq_dec (Zpos m) (Zpos n)) as [Heq|Hne].
  - left. assert (q = 2 ^ s) as ->.
    { rewrite Heq in Hdm.
      destruct (Z.lt_trichotomy q (2 ^ s)) as [?|[?|?]]; [nia|done|nia]. }
    assert (r = 0) as -> by lia.
    split; [apply new_location_0|].
    rewrite sval_pow by lia. apply pow2_le; lia.
  - right. assert (q + 1 ≤ 2 ^ s) by nia.
    etrans; [apply (sval_mono _ (2 ^ s)); lia|].
    rewrite sval_pow by lia. apply pow2_le; lia.
Qed.

(** *** The product with 100 *)

Lemma of_int_100 :
  PyFloat.of_int 100 = S754_finite false 7036874417766400 (-46).
Proof. reflexivity. Qed.

Lemma mul_100_below (q : spec_float) :
  below q (2 ^ 52) (-52) →
  below (PyFloat.mul q (PyFloat.of_int 100)) 7036874417766400 (-46).
Proof.
  rewrite of_int_100. destruct q as [[]| | |[] m e]; try done.
  intros [He Hv]. unfold PyFloat.mul, SFmul. cbn [xorb].
  rewrite sval_pow in Hv by lia. change (52 + -52 + 1200) with 1200 in Hv.
  assert (e ≤ 0) as He0.
  { assert (2 ^ (e + 1200) ≤ 2 ^ 1200) as Hp.
    { etrans; [|exact Hv]. unfold sval.
      assert (0 < 2 ^ (e + 1200)) by (apply Z.pow_pos_nonneg; lia). nia. }
    apply Z.pow_le_mono_r_iff in Hp; lia. }
  apply binary_round_aux_below; [lia|lia|lia|lia|].
  left. split; [done|]. rewrite Pos2Z.inj_mul. unfold sval in *.
  replace (e + 1200) with (e + -46 + 1200 + 46) in Hv by lia.
  rewrite Z.pow_add_r in Hv by lia.
  change (-46 + 1200) with 1154.
  change (2 ^ 1200) with (2 ^ 1154 * 2 ^ 46) in Hv.
  assert (Zpos m * 2 ^ (e + -46 + 1200) ≤ 2 ^ 1154) as Hv' by lia.
  nia.
Qed.

(** *** Truncation *)

Lemma to_int_below (f : spec_float) :
  below f 7036874417766400 (-46) →
  ∃ z, PyFloat.to_int f = Ok z ∧ 0 ≤ z ≤ 100.
Proof.
  destruct f as [[]| | |[] m e]; try done.
  - intros _. exists 0. split; [done|lia].
  - intros [He Hv]. eexists. split; [reflexivity|]. cbn [cond_Zopp].
    change 7036874417766400 with (100 * 2 ^ 46) in Hv.
    rewrite <- (sval_shift 100 (-46) 46) in Hv by lia.
    change (-46 + 46) with 0 in Hv.
    destruct e as [|k|k].
    + rewrite Z.shiftl_0_r. apply sval_cancel in Hv; lia.
    + rewrite Z.shiftl_mul_pow2 by lia.
      replace (Zpos k) with (0 + Zpos k) in Hv by lia.
      rewrite sval_shift in Hv by lia. apply sval_cancel in Hv; [|lia].
      assert (0 < 2 ^ Zpos k) by (apply Z.pow_pos_nonneg; lia). nia.
    + rewrite Z.shiftr_div_pow2 by lia.
      assert (0 < 2 ^ Zpos k) by (apply Z.pow_pos_nonneg; lia).
      assert (sval 100 0 = sval (100 * 2 ^ Zpos k) (Zneg k)) as H100.
      { rewrite <- sval_shift by lia. f_equal. lia. }
      rewrite H100 in Hv. apply sval_cancel in Hv; [|lia].
      split; [apply Z.div_pos; lia|]. apply Z.div_le_upper_bound; lia.
Qed.

(** The percentage of [m] in [n] never leaves 0..100 and never fails. *)
Lemma percent_in_range (m n : Z) :
  0 ≤ m ≤ n → 0 < n →
  ∃ z, (q ← PyFloat.int_truediv m n;
        PyFloat.to_int (PyFloat.mul q (PyFloat.of_int 100))) = Ok z
       ∧ 0 ≤ z ≤ 100.
Proof.
  intros Hm Hn. unfold PyFloat.int_truediv.
  rewrite (proj2 (Z.eqb_neq n 0)) by lia.
  destruct n as [|n|n]; [lia| |lia]. destruct m as [|m|m]; [| |lia].
  - exists 0. split; [done|lia].
  - pose proof (div_below_one m n ltac:(lia)) as Hq. cbn [PyFloat.raw].
    pose proof (mul_100_below _ Hq) as Hp. apply to_int_below in Hp.
    destruct (SFdiv prec emax _ _) as [[]| | |[] mq eq]; try done.
Qed.

End PyFloatFacts.

(** ** ATS score *)

Section Score.
Implicit Types (text : string) (skills : list string).

Lemma ats_keyword_score_percent text skills :
  skills ≠ [] →
  ats_keyword_score text skills
  = percent (scorer_matched_count text skills) (Z.of_nat (length skills)).
Proof. by destruct skills. Qed.

Lemma scorer_matched_count_length text skills :
  scorer_matched_count text skills
  = Z.of_nat (length (filter (λ s, Str.contains s (Str.lower text)) skills)).
Proof. apply py_sum_ones. Qed.

Lemma scorer_matched_count_bounds text skills :
  0 ≤ scorer_matched_count text skills ≤ Z.of_nat (length skills).
Proof.
  rewrite scorer_matched_count_length.
  pose proof (length_filter (λ s, Str.contains s (Str.lower text)) skills). lia.
Qed.

(** On lower-case skills the scorer's test is case-insensitive occurrence. *)
Lemma scorer_matched_count_ci text skills :
  Forall is_lower skills →
  scorer_matched_count text skills = matched_count_ci text skills.
Proof.
  intros Hl. rewrite scorer_matched_count_length. unfold matched_count_ci.
  do 2 f_equal. induction Hl as [|s l Hs _ IH]; [done|].
  rewrite !filter_cons, IH, (contains_lower_ci s text Hs). done.
Qed.

(** Every percentage with a denominator up to 49, computed. *)
Lemma percent_floor_table :
  Forall (λ n, Forall (λ m, percent m n = Ok (floor_percent m n))
                 (seqZ 0 (n + 1)))
    (seqZ 1 49).
Proof. apply (bool_decide_unpack _). by vm_compute. Qed.

Lemma percent_floor (m n : Z) :
  0 ≤ m ≤ n → 0 < n ≤ 49 → percent m n = Ok (floor_percent m n).
Proof.
  intros Hm Hn.
  pose proof (proj1 (Forall_forall _ _) percent_floor_table n) as Hrow.
  cbn beta in Hrow.
  assert (n ∈ seqZ 1 49) as Hin by (apply elem_of_seqZ; lia).
  apply (proj1 (Forall_forall _ _) (Hrow Hin) m). apply elem_of_seqZ. lia.
Qed.

End Score.

(** The quotient of the two integers is the IEEE quotient of the two
    doubles they convert to; checked here for every pair up to 49. *)
Example int_truediv_is_double_division :
  Forall (λ n, Forall (λ m, PyFloat.int_truediv m n
                            = Ok (SFdiv PyFloat.prec PyFloat.emax
                                    (PyFloat.of_int m) (PyFloat.of_int n)))
                 (seqZ 0 (n + 1)))
    (seqZ 1 49).
Proof. apply (bool_decide_unpack _). by vm_compute. Qed.

(** The example of the specification: a resume that knows Python and SQL
    against a job that needs Python. *)
Example python_sql_report :
  let resume_skills := extract_skills "I know Python and SQL" in
  let jd_skills := extract_skills "Need Python" in
  matched_skills resume_skills jd_skills = ["python"]
  ∧ missing_skills resume_skills jd_skills = []
  ∧ ats_keyword_score "I know Python and SQL" jd_skills = Ok 100.
Proof. by vm_compute. Qed.

(** With 50 target skills the double arithmetic falls below the exact
    fraction: 29 of 50 score 57, not 58. *)
Example percent_29_of_50 :
  percent 29 50 = Ok 57 ∧ floor_percent 29 50 = 58.
Proof. by vm_compute. Qed.

(** An upper-case target skill is never counted, whatever the resume says. *)
Example upper_case_skill_not_counted :
  ats_keyword_score "AWS and aws" ["AWS"] = Ok 0
  ∧ matched_count_ci "AWS and aws" ["AWS"] = 1.
Proof. by vm_compute. Qed.

(** C1 (as stated): two of three skills score 66, where rounding to the
    nearest integer gives 67. *)
Lemma score_does_not_round :
  ¬ score_rounds "aws docker" ["aws"; "docker"; "kubernetes"].
Proof.
  unfold score_rounds. intros H. specialize (H ltac:(done)).
  vm_compute in H. discriminate H.
Qed.

(** C1 (amended): for a non-empty list of at most 49 lower-case target
    skills the score is the percentage of the skills that occur in the
    resume text case-insensitively, truncated to an integer. *)
Theorem ats_keyword_score_floor (text : string) (skills : list string) :
  skills ≠ [] → Forall is_lower skills → (length skills ≤ 49)%nat →
  ats_keyword_score text skills
  = Ok (floor_percent (matched_count_ci text skills) (Z.of_nat (length skills))).
Proof.
  intros Hne Hl Hlen. rewrite ats_keyword_score_percent by done.
  rewrite <- scorer_matched_count_ci by done.
  apply percent_floor.
  - apply scorer_matched_count_bounds.
  - destruct skills; [done|]. cbn [length] in *. lia.
Qed.

(** One of the three skills [aws], [docker], [kubernetes] scores 33. *)
Lemma ats_keyword_score_floor_witness :
  ats_keyword_score "Shipped services with Docker" ["aws"; "docker"; "kubernetes"]
  = Ok 33.
Proof.
  apply (ats_keyword_score_floor "Shipped services with Docker"
           ["aws"; "docker"; "kubernetes"]).
  - discriminate.
  - repeat constructor.
  - cbn. lia.
Defined.

(** C6. The score is an integer between 0 and 100, and it is 0 for the
    empty target list whatever the resume text. *)
Theorem ats_keyword_score_range (text : string) (skills : list string) :
  (∃ z, ats_keyword_score text skills = Ok z ∧ 0 ≤ z ≤ 100)
  ∧ ats_keyword_score text [] = Ok 0.
Proof.
  split; [|done]. destruct (decide (skills = [])) as [->|Hne].
  - exists 0. split; [done|lia].
  - rewrite ats_keyword_score_percent by done.
    apply PyFloatFacts.percent_in_range.
    + apply scorer_matched_count_bounds.
    + destruct skills; [done|]. cbn [length]. lia.
Qed.

(** * Further properties *)

(** ** The matcher on related texts *)

Section MatcherMore.





Lemma contains_app (s pre t post : string) :
  Str.contains s t = true → Str.contains s (pre +:+ t +:+ post) = true.
Proof.
  rewrite !StrFacts.contains_spec. intros (a & b & ->).
  exists (pre +:+ a), (b +:+ post). by rewrite !StrFacts.app_assoc.
Qed.

Lemma contains_trans (s s' t : string) :
  Str.contains s s' = true → Str.contains s' t = true → Str.contains s t = true.
Proof.
  rewrite !StrFacts.contains_spec. intros (a & b & ->) (c & d & ->).
  exists (c +:+ a), (b +:+ d). by rewrite !StrFacts.app_assoc.
Qed.

Lemma filter_sublist_impl {A} (P Q : A → Prop)
    `{!∀ x, Decision (P x), !∀ x, Decision (Q x)} (l : list A) :
  (∀ x, P x → Q x) → filter P l `sublist_of` filter Q l.
Proof.
  intros HPQ. induction l as [|x l IH]; [done|]. rewrite !filter_cons.
  destruct (decide (P x)) as [HP|HP].
  - rewrite decide_True by auto. by constructor.
  - destruct (decide (Q x)); [by constructor|done].
Qed.

End MatcherMore.

(** X1. Text around a text never removes a skill: the skills of a text are
    a subsequence of the skills of every text that contains it. *)
Theorem extract_skills_grows (pre text post : string) :
  extract_skills text `sublist_of` extract_skills (pre +:+ text +:+ post).
Proof.
  unfold extract_skills. apply filter_sublist_impl. intros s.
  rewrite !Is_true_true, !StrFacts.lower_app. apply contains_app.
Qed.


(** X3. A vocabulary entry that is part of a matched entry is matched too:
    whoever matches [javascript] matches [java], whoever matches [github]
    matches [git]. *)
Theorem contained_skill_is_matched (text s s' : string) :
  s ∈ COMMON_SKILLS → Str.contains s s' = true →
  s' ∈ extract_skills text → s ∈ extract_skills text.
Proof.
  intros Hs Hsub. rewrite !elem_of_extract_skills. intros [_ Hs'].
  split; [done|]. by eapply contains_trans.
Qed.

Lemma contained_skill_is_matched_witness :
  "java" ∈ extract_skills "Senior JavaScript developer".
Proof.
  apply (contained_skill_is_matched "Senior JavaScript developer" "java" "javascript").
  - apply (bool_decide_unpack _). by vm_compute.
  - reflexivity.
  - apply (bool_decide_unpack _). by vm_compute.
Defined.

(** ** The report's lists and the score *)

Section ReportMore.
Implicit Types (X : gset string) (resume_skills jd_skills : list string).

Lemma sorted_NoDup X : NoDup (sorted X).
Proof. rewrite sorted_perm. apply NoDup_elements. Qed.

Lemma sorted_nil X : sorted X = [] ↔ X = ∅.
Proof.
  split.
  - intros H. apply set_eq. intros s. rewrite <- elem_of_sorted, H.
    rewrite elem_of_nil, elem_of_empty. done.
  - intros ->. apply Permutation_nil_r. rewrite sorted_perm.
    by rewrite elements_empty.
Qed.

Lemma length_matched_missing resume_skills jd_skills :
  NoDup jd_skills →
  (length (matched_skills resume_skills jd_skills)
   + length (missing_skills resume_skills jd_skills))%nat
  = length jd_skills.
Proof.
  intros Hnd. unfold matched_skills, missing_skills. rewrite !length_sorted.
  rewrite <- size_union
    by (intros s; rewrite elem_of_intersection, elem_of_difference; tauto).
  rewrite <- (size_list_to_set (C := gset string) jd_skills) by done.
  f_equal. apply set_eq. intros s.
  rewrite elem_of_union, elem_of_intersection, elem_of_difference.
  destruct (decide (s ∈ (list_to_set resume_skills : gset string))); tauto.
Qed.

Lemma ats_keyword_score_total (text : string) (skills : list string) :
  ∃ z, ats_keyword_score text skills = Ok z ∧ 0 ≤ z ≤ 100.
Proof.
  destruct (decide (skills = [])) as [->|Hne].
  - exists 0. split; [done|lia].
  - rewrite ats_keyword_score_percent by done.
    apply PyFloatFacts.percent_in_range.
    + apply scorer_matched_count_bounds.
    + destruct skills; [done|]. cbn [length]. lia.
Qed.

Lemma length_extract_skills (text : string) :
  (length (extract_skills text) ≤ 23)%nat.
Proof. apply (length_filter _ COMMON_SKILLS). Qed.

(** The score of the endpoint in terms of the sizes of its two lists. *)
Lemma pipeline_score (text job_description : string) :
  let jd_skills := extract_skills job_description in
  let m := length (matched_skills (extract_skills text) jd_skills) in
  let k := length (missing_skills (extract_skills text) jd_skills) in
  jd_skills ≠ [] →
  (0 < m + k ≤ 23)%nat
  ∧ ats_keyword_score text jd_skills
    = Ok (floor_percent (Z.of_nat m) (Z.of_nat (m + k))).
Proof.
  intros jd_skills m k Hne.
  pose proof (length_matched_missing (extract_skills text) jd_skills
                (extract_skills_NoDup job_description)) as Hlen.
  fold m k in Hlen.
  pose proof (length_extract_skills job_description) as H23. fold jd_skills in H23.
  assert (0 < length jd_skills)%nat by (destruct jd_skills; [done|cbn; lia]).
  split; [lia|].
  rewrite ats_keyword_score_percent by done.
  pose proof (count_parity_vocabulary text jd_skills
                (extract_skills_NoDup _) (extract_skills_subseteq _)) as Hpar.
  unfold count_parity in Hpar. fold m in Hpar. rewrite Hpar, Hlen.
  apply percent_floor; lia.
Qed.

End ReportMore.

(** X4. For a duplicate-free list of job skills the matched and the missing
    list have no duplicates and together as many entries as the job list. *)
Theorem report_lists_count (resume_skills jd_skills : list string) :
  NoDup jd_skills →
  NoDup (matched_skills resume_skills jd_skills)
  ∧ NoDup (missing_skills resume_skills jd_skills)
  ∧ (length (matched_skills resume_skills jd_skills)
     + length (missing_skills resume_skills jd_skills))%nat
    = length jd_skills.
Proof.
  intros Hnd. split; [apply sorted_NoDup|]. split; [apply sorted_NoDup|].
  by apply length_matched_missing.
Qed.

Lemma report_lists_count_witness :
  NoDup (matched_skills ["sql"; "python"] ["python"; "docker"; "aws"])
  ∧ NoDup (missing_skills ["sql"; "python"] ["python"; "docker"; "aws"])
  ∧ (length (matched_skills ["sql"; "python"] ["python"; "docker"; "aws"])
     + length (missing_skills ["sql"; "python"] ["python"; "docker"; "aws"]))%nat
    = 3%nat.
Proof.
  apply (report_lists_count ["sql"; "python"] ["python"; "docker"; "aws"]).
  apply (bool_decide_unpack _). by vm_compute.
Defined.

(** X5. Nothing is missing exactly when every job skill is a resume skill,
    and nothing is matched exactly when the two lists share no skill. *)
Theorem report_lists_empty (resume_skills jd_skills : list string) :
  (missing_skills resume_skills jd_skills = [] ↔ jd_skills ⊆ resume_skills)
  ∧ (matched_skills resume_skills jd_skills = []
     ↔ ∀ s, s ∈ jd_skills → s ∉ resume_skills).
Proof.
  unfold missing_skills, matched_skills. rewrite !sorted_nil. split.
  - split.
    + intros H s Hs. destruct (decide (s ∈ resume_skills)) as [|Hn]; [done|].
      assert (s ∈ (list_to_set jd_skills ∖ list_to_set resume_skills : gset string))
        as Hin by (rewrite elem_of_difference, !elem_of_list_to_set; done).
      rewrite H in Hin. by apply elem_of_empty in Hin.
    + intros H. apply set_eq. intros s.
      rewrite elem_of_difference, !elem_of_list_to_set, elem_of_empty.
      specialize (H s). tauto.
  - split.
    + intros H s Hs Hr.
      assert (s ∈ (list_to_set resume_skills ∩ list_to_set jd_skills : gset string))
        as Hin by (rewrite elem_of_intersection, !elem_of_list_to_set; done).
      rewrite H in Hin. by apply elem_of_empty in Hin.
    + intros H. apply set_eq. intros s.
      rewrite elem_of_intersection, !elem_of_list_to_set, elem_of_empty.
      specialize (H s). tauto.
Qed.

(** X6. In the endpoint the score is read off the two lists: with job
    skills extracted from the job description, it is 0 when there are none
    and otherwise the truncated percentage of the matched among the matched
    and the missing. *)
Theorem score_from_report_lists (text job_description : string) :
  let jd_skills := extract_skills job_description in
  let m := length (matched_skills (extract_skills text) jd_skills) in
  let k := length (missing_skills (extract_skills text) jd_skills) in
  ats_keyword_score text jd_skills
  = Ok (if decide (jd_skills = []) then 0
        else floor_percent (Z.of_nat m) (Z.of_nat (m + k))).
Proof.
  intros jd_skills m k. destruct (decide (jd_skills = [])) as [Hnil|Hne].
  - by rewrite Hnil.
  - destruct (pipeline_score text job_description Hne) as [_ Hs]. exact Hs.
Qed.

(** X7. When the job description names a skill, the endpoint's score is
    100 exactly when no job skill is missing, and 0 exactly when none is
    matched. *)
Theorem score_extremes (text job_description : string) :
  let jd_skills := extract_skills job_description in
  jd_skills ≠ [] →
  (ats_keyword_score text jd_skills = Ok 100
   ↔ missing_skills (extract_skills text) jd_skills = [])
  ∧ (ats_keyword_score text jd_skills = Ok 0
     ↔ matched_skills (extract_skills text) jd_skills = []).
Proof.
  intros jd_skills Hne.
  destruct (pipeline_score text job_description Hne) as [Hmk Hs].
  fold jd_skills in Hmk, Hs. rewrite Hs. clear Hs.
  set (m := length (matched_skills (extract_skills text) jd_skills)) in *.
  set (k := length (missing_skills (extract_skills text) jd_skills)) in *.
  unfold floor_percent.
  assert (∀ l : list string, l = [] ↔ length l = 0%nat) as Hlen0
    by (intros []; cbn; split; (done || lia)).
  rewrite !Hlen0. fold m k. split.
  - split.
    + intros [= H]. destruct (decide (k = 0%nat)) as [|Hk]; [done|]. exfalso.
      assert ((100 * Z.of_nat m) `div` Z.of_nat (m + k) < 100); [|lia].
      apply Z.div_lt_upper_bound; lia.
    + intros Hk. rewrite Hk in *. f_equal. rewrite Nat.add_0_r.
      apply Z.div_mul. lia.
  - split.
    + intros [= H]. destruct (decide (m = 0%nat)) as [|Hm]; [done|]. exfalso.
      assert (1 ≤ (100 * Z.of_nat m) `div` Z.of_nat (m + k)); [|lia].
      apply Z.div_le_lower_bound; lia.
    + intros Hm. by rewrite Hm.
Qed.

Lemma score_extremes_witness :
  (ats_keyword_score "Python, SQL and Docker" (extract_skills "Need SQL and Python")
   = Ok 100
   ↔ missing_skills (extract_skills "Python, SQL and Docker")
       (extract_skills "Need SQL and Python") = [])
  ∧ (ats_keyword_score "Python, SQL and Docker" (extract_skills "Need SQL and Python")
     = Ok 0
     ↔ matched_skills (extract_skills "Python, SQL and Docker")
         (extract_skills "Need SQL and Python") = []).
Proof.
  apply (score_extremes "Python, SQL and Docker" "Need SQL and Python").
  discriminate.
Defined.

(** X8. The score does not depend on the order of the target skills. *)
Theorem ats_keyword_score_permutation (text : string) (skills skills' : list string) :
  skills ≡ₚ skills' →
  ats_keyword_score text skills = ats_keyword_score text skills'.
Proof.
  intros Hp. destruct (decide (skills = [])) as [->|Hne].
  - by apply Permutation_nil_l in Hp as ->.
  - assert (skills' ≠ []) as Hne'.
    { intros ->. by apply Permutation_nil_r in Hp. }
    rewrite !ats_keyword_score_percent, !scorer_matched_count_length by done.
    by rewrite Hp.
Qed.

Lemma ats_keyword_score_permutation_witness :
  ats_keyword_score "aws and docker" ["aws"; "sql"; "docker"]
  = ats_keyword_score "aws and docker" ["docker"; "aws"; "sql"].
Proof.
  apply (ats_keyword_score_permutation "aws and docker").
  etrans; [apply Permutation_skip, Permutation_swap|apply Permutation_swap].
Defined.

(** ** File names *)

Section FileNames.

Lemma split_go_no_sep (sep : ascii) (cur s : string) :
  Str.contains (String sep "") s = false →
  Str.split_go sep cur s = [String.rev_app cur s].
Proof.
  revert cur. induction s as [|c s IH]; intros cur Hc; [done|].
  cbn [Str.split_go]. cbn in Hc. rewrite Ascii.eqb_sym.
  destruct (Ascii.eqb sep c); [done|]. by rewrite IH.
Qed.

Lemma split_go_not_nil (sep : ascii) (cur s : string) :
  Str.split_go sep cur s ≠ [].
Proof.
  revert cur. induction s as [|c s IH]; intros cur; [done|].
  cbn [Str.split_go]. destruct (Ascii.eqb c sep); [done|apply IH].
Qed.

Lemma last_cons_not_nil {A} (x d : A) (l : list A) :
  l ≠ [] → List.last (x :: l) d = List.last l d.
Proof. by destruct l. Qed.

Lemma last_split_go (sep : ascii) (cur stem ext : string) :
  List.last (Str.split_go sep cur (stem +:+ String sep ext)) ""
  = List.last (Str.split_go sep "" ext) "".
Proof.
  revert cur. induction stem as [|c stem IH]; intros cur.
  - rewrite StrFacts.app_nil. cbn [Str.split_go]. rewrite Ascii.eqb_refl.
    apply last_cons_not_nil, split_go_not_nil.
  - rewrite StrFacts.app_cons. cbn [Str.split_go].
    destruct (Ascii.eqb c sep); [|apply IH].
    rewrite last_cons_not_nil by apply split_go_not_nil. apply IH.
Qed.

End FileNames.

(** X9. The suffix that decides what an upload is, is what follows the last
    dot of the file name, in lower case: for a name [stem.ext] whose [ext]
    has no dot it is [ext.lower()]. *)
Theorem file_suffix_after_last_dot (stem ext : string) :
  Str.contains "." ext = false →
  file_suffix (stem +:+ "." +:+ ext) = Str.lower ext.
Proof.
  intros Hext. unfold file_suffix, Str.split. f_equal.
  change (stem +:+ "." +:+ ext) with (stem +:+ String "."%char ext).
  rewrite (last_split_go "." "" stem ext).
  by rewrite (split_go_no_sep "." "" ext Hext).
Qed.

Lemma file_suffix_after_last_dot_witness :
  file_suffix ("my.resume.v2" +:+ "." +:+ "DocX") = "docx".
Proof. apply (file_suffix_after_last_dot "my.resume.v2" "DocX"). reflexivity. Defined.

(** X10. A file name without a dot is its own suffix, so an upload that
    is just called [PDF] passes the file type check. *)
Theorem file_suffix_without_dot (name : string) :
  Str.contains "." name = false → file_suffix name = Str.lower name.
Proof.
  intros Hn. unfold file_suffix, Str.split.
  by rewrite (split_go_no_sep "." "" name Hn).
Qed.

Lemma file_suffix_without_dot_witness : file_suffix "PDF" = "pdf".
Proof. apply (file_suffix_without_dot "PDF"). reflexivity. Defined.

(** ** The summary of a DOCX resume *)

Section Summary.
Implicit Types (ps pre post : list string) (h old summary : string).

Lemma replace_summary_cons2 (p q : string) ps summary :
  replace_summary (p :: q :: ps) summary
  = if is_heading p then p :: summary :: ps
    else p :: replace_summary (q :: ps) summary.
Proof. reflexivity. Qed.

End Summary.

(** X11. [update_docx_resume] rewrites the paragraph that follows the first
    paragraph reading SUMMARY (in any case, with spaces around it) and
    leaves every other paragraph as it is. *)
Theorem replace_summary_first_heading
    (pre post : list string) (h old summary : string) :
  Forall (λ p, is_heading p = false) pre → is_heading h = true →
  replace_summary (pre ++ h :: old :: post) summary
  = pre ++ h :: summary :: post.
Proof.
  intros Hpre Hh. induction Hpre as [|p pre Hp _ IH].
  - cbn [app]. by rewrite replace_summary_cons2, Hh.
  - destruct pre as [|q pre].
    + cbn [app] in *. by rewrite replace_summary_cons2, Hp, IH.
    + cbn [app] in *. by rewrite replace_summary_cons2, Hp, IH.
Qed.

Lemma replace_summary_first_heading_witness :
  replace_summary (["Jane Doe"; "Engineer"] ++ "  Summary " :: "old text" :: ["Skills"])
    SUMMARY_TEXT
  = ["Jane Doe"; "Engineer"] ++ "  Summary " :: SUMMARY_TEXT :: ["Skills"].
Proof.
  apply (replace_summary_first_heading ["Jane Doe"; "Engineer"] ["Skills"]
           "  Summary " "old text" SUMMARY_TEXT).
  - by repeat constructor.
  - reflexivity.
Defined.

(** X12. A document in which no paragraph that has a successor reads
    SUMMARY is saved unchanged; a SUMMARY heading in the last paragraph
    changes nothing. *)
Theorem replace_summary_no_heading (ps : list string) (summary : string) :
  (∀ pre h rest, ps = pre ++ h :: rest → rest ≠ [] → is_heading h = false) →
  replace_summary ps summary = ps.
Proof.
  induction ps as [|p ps IH]; intros Hno; [done|].
  destruct ps as [|q ps]; [done|].
  rewrite replace_summary_cons2.
  rewrite (Hno [] p (q :: ps)) by done. f_equal. apply IH.
  intros pre h rest Heq Hrest. apply (Hno (p :: pre) h rest); [|done].
  by rewrite Heq.
Qed.

Lemma replace_summary_no_heading_witness :
  replace_summary ["Jane Doe"; "Experience"; "SUMMARY"] SUMMARY_TEXT
  = ["Jane Doe"; "Experience"; "SUMMARY"].
Proof.
  apply (replace_summary_no_heading ["Jane Doe"; "Experience"; "SUMMARY"]).
  intros pre h rest Heq Hrest.
  destruct pre as [|p1 [|p2 [|p3 pre]]]; simplify_eq/=; try done.
  by destruct pre.
Defined.

(** X13. The rewrite keeps the number of paragraphs, and every paragraph
    of the result is the paragraph that was there or the new summary. *)
Theorem replace_summary_shape (ps : list string) (summary : string) :
  length (replace_summary ps summary) = length ps
  ∧ ∀ i, replace_summary ps summary !! i = ps !! i
         ∨ (is_Some (ps !! i) ∧ replace_summary ps summary !! i = Some summary).
Proof.
  induction ps as [|p ps IH]; [by split; [|left]|].
  destruct ps as [|q ps]; [by split; [|left]|].
  rewrite replace_summary_cons2. destruct (is_heading p).
  - split; [done|]. intros [|[|i]]; [by left|right|by left].
    split; [by eexists|done].
  - destruct IH as [IHl IHi]. split; [cbn [length]; by rewrite IHl|].
    intros [|i]; [by left|]. apply (IHi i).
Qed.

(** ** Trimming *)

Section Strip.
Implicit Types (s t : string) (c : ascii).









End Strip.


(** ** Runs of the endpoint *)

Section Runs.
Variable w : world.

Lemma bind_run {A B} (m : M A) (f : A → M B) (tr : list event) :
  (m ≫= f) tr
  = match m tr with
    | (Ok a, tr') => f a tr'
    | (Raise e, tr') => (Raise e, tr')
    end.
Proof. reflexivity. Qed.

Lemma extract_text_from_pdf_run (data : list Byte.byte) (tr : list event) :
  extract_text_from_pdf w data tr
  = (match pdf_pages w data with
     | Ok pages => Ok (pdf_text pages)
     | Raise e => Raise e
     end, tr ++ [PdfOpen data]).
Proof.
  unfold extract_text_from_pdf. rewrite bind_run. cbn [emit]. rewrite bind_run.
  unfold lift. by destruct (pdf_pages w data).
Qed.

Lemma extract_text_from_docx_run (data : list Byte.byte) (tr : list event) :
  extract_text_from_docx w data tr
  = (match docx_paragraphs w data with
     | Ok ps => Ok (docx_text ps)
     | Raise e => Raise e
     end, tr ++ [DocxOpen data]).
Proof.
  unfold extract_text_from_docx. rewrite bind_run. cbn [emit]. rewrite bind_run.
  unfold lift. by destruct (docx_paragraphs w data).
Qed.

Lemma update_docx_resume_run (data : list Byte.byte) (summary : string)
    (tr : list event) :
  update_docx_resume w data summary tr
  = match docx_paragraphs w data with
    | Ok ps => (Ok (uuid4 w),
                tr ++ [DocxOpen data; DocxSave (uuid4 w) (replace_summary ps summary)])
    | Raise e => (Raise e, tr ++ [DocxOpen data])
    end.
Proof.
  unfold update_docx_resume. rewrite bind_run. cbn [emit]. rewrite bind_run.
  unfold lift. destruct (docx_paragraphs w data) as [ps|e]; [|done].
  cbn zeta. rewrite bind_run. cbn [emit]. by rewrite <- app_assoc.
Qed.

Lemma ai_analysis_trace (resume_text job_description : string) (score : Z)
    (matched missing : list string) (tr : list event) :
  ∃ a, ai_analysis w resume_text job_description score matched missing tr
       = (Ok a, tr ++ critique_posts w
                        (ai_prompt resume_text job_description score matched missing)).
Proof.
  rewrite ai_analysis_run. cbn zeta. rewrite openrouter_think_run.
  unfold critique_posts. destruct (key_missing _).
  - eexists. by rewrite app_nil_r.
  - by eexists.
Qed.

(** The endpoint after the file type check and the text extraction. *)
Lemma analyze_resume_accepted (resume : upload) (job_description : string)
    (tr : list event) :
  file_suffix (filename resume) ∈ ["pdf"; "docx"] →
  analyze_resume w resume job_description tr
  = (_ ← emit (TempFileWrite ("." +:+ file_suffix (filename resume)) (content resume));
     resume_text ←
       (if String.eqb (file_suffix (filename resume)) "pdf"
        then extract_text_from_pdf w (content resume)
        else extract_text_from_docx w (content resume));
     let jd_skills := extract_skills job_description in
     let matched := matched_skills (extract_skills resume_text) jd_skills in
     let missing := missing_skills (extract_skills resume_text) jd_skills in
     score ← lift (ats_keyword_score resume_text jd_skills);
     download_id ←
       (if String.eqb (file_suffix (filename resume)) "docx"
        then id ← update_docx_resume w (content resume) SUMMARY_TEXT; mret (Some id)
        else mret None);
     ai_result ← ai_analysis w resume_text job_description score matched missing;
     mret (ReportBody
             {| Report.score := score;
                Report.matched_skills := matched;
                Report.missing_skills := missing;
                Report.skill_scores := skill_scores matched jd_skills;
                Report.ai_analysis := ai_result;
                Report.download_id := download_id |})) tr.
Proof.
  intros Hs. unfold analyze_resume. cbn zeta.
  by rewrite bool_decide_eq_false_2 by (intros Hn; by apply Hn).
Qed.

(** A run on a PDF whose pages were read. *)
Lemma analyze_resume_pdf_run (resume : upload) (job_description : string)
    (tr : list event) (pages : list (option string)) :
  file_suffix (filename resume) = "pdf" →
  pdf_pages w (content resume) = Ok pages →
  let text := pdf_text pages in
  let jd_skills := extract_skills job_description in
  let matched := matched_skills (extract_skills text) jd_skills in
  let missing := missing_skills (extract_skills text) jd_skills in
  ∃ score a,
    ats_keyword_score text jd_skills = Ok score ∧ 0 ≤ score ≤ 100
    ∧ analyze_resume w resume job_description tr
      = (Ok (ReportBody
               {| Report.score := score;
                  Report.matched_skills := matched;
                  Report.missing_skills := missing;
                  Report.skill_scores := skill_scores matched jd_skills;
                  Report.ai_analysis := a;
                  Report.download_id := None |}),
         tr ++ [TempFileWrite ".pdf" (content resume); PdfOpen (content resume)]
            ++ critique_posts w (ai_prompt text job_description score matched missing)).
Proof.
  intros Hs Hp text jd_skills matched missing.
  destruct (ats_keyword_score_total text jd_skills) as (score & Hscore & Hrange).
  destruct (ai_analysis_trace text job_description score matched missing
              (tr ++ [TempFileWrite ".pdf" (content resume); PdfOpen (content resume)]))
    as [a Ha].
  exists score, a. split; [done|]. split; [done|].
  rewrite analyze_resume_accepted by (rewrite Hs, !elem_of_cons; auto).
  rewrite Hs. change (String.eqb "pdf" "pdf") with true.
  change (String.eqb "pdf" "docx") with false. cbv iota.
  rewrite bind_run. cbn [emit]. rewrite bind_run, extract_text_from_pdf_run, Hp.
  fold text. cbn zeta. fold jd_skills matched missing.
  rewrite bind_run. unfold lift at 1. rewrite Hscore.
  rewrite bind_run. unfold mret at 1, M_ret at 1. rewrite bind_run.
  rewrite <- app_assoc. cbn [app]. change ("." +:+ "pdf") with ".pdf".
  rewrite Ha. unfold mret, M_ret. by rewrite <- !app_assoc.
Qed.

(** A run on a DOCX whose paragraphs were read. *)
Lemma analyze_resume_docx_run (resume : upload) (job_description : string)
    (tr : list event) (ps : list string) :
  file_suffix (filename resume) = "docx" →
  docx_paragraphs w (content resume) = Ok ps →
  let text := docx_text ps in
  let jd_skills := extract_skills job_description in
  let matched := matched_skills (extract_skills text) jd_skills in
  let missing := missing_skills (extract_skills text) jd_skills in
  ∃ score a,
    ats_keyword_score text jd_skills = Ok score ∧ 0 ≤ score ≤ 100
    ∧ analyze_resume w resume job_description tr
      = (Ok (ReportBody
               {| Report.score := score;
                  Report.matched_skills := matched;
                  Report.missing_skills := missing;
                  Report.skill_scores := skill_scores matched jd_skills;
                  Report.ai_analysis := a;
                  Report.download_id := Some (uuid4 w) |}),
         tr ++ [TempFileWrite ".docx" (content resume); DocxOpen (content resume);
                DocxOpen (content resume);
                DocxSave (uuid4 w) (replace_summary ps SUMMARY_TEXT)]
            ++ critique_posts w (ai_prompt text job_description score matched missing)).
Proof.
  intros Hs Hp text jd_skills matched missing.
  destruct (ats_keyword_score_total text jd_skills) as (score & Hscore & Hrange).
  destruct (ai_analysis_trace text job_description score matched missing
              (tr ++ [TempFileWrite ".docx" (content resume); DocxOpen (content resume);
                      DocxOpen (content resume);
                      DocxSave (uuid4 w) (replace_summary ps SUMMARY_TEXT)]))
    as [a Ha].
  exists score, a. split; [done|]. split; [done|].
  rewrite analyze_resume_accepted by (rewrite Hs, !elem_of_cons; auto).
  rewrite Hs. change (String.eqb "docx" "pdf") with false.
  change (String.eqb "docx" "docx") with true. cbv iota.
  rewrite bind_run. cbn [emit]. rewrite bind_run, extract_text_from_docx_run, Hp.
  fold text. cbn zeta. fold jd_skills matched missing.
  rewrite bind_run. unfold lift at 1. rewrite Hscore.
  rewrite !bind_run, update_docx_resume_run, Hp.
  unfold mret at 1, M_ret at 1. rewrite bind_run.
  change ("." +:+ "docx") with ".docx".
  rewrite <- !app_assoc. cbn [app]. rewrite <- !app_assoc in Ha. cbn [app] in Ha.
  rewrite Ha. unfold mret, M_ret. by rewrite <- ?app_assoc.
Qed.

End Runs.

(** X15. A document that the parser rejects fails the request with the
    parser's exception, after the temporary file was written and the
    document opened; nothing is scored, saved or sent. *)
Theorem parse_failure_propagates (w : world) (resume : upload)
    (job_description : string) (tr : list event) (e : exn) :
  (file_suffix (filename resume) = "pdf" →
   pdf_pages w (content resume) = Raise e →
   analyze_resume w resume job_description tr
   = (Raise e, tr ++ [TempFileWrite ".pdf" (content resume); PdfOpen (content resume)]))
  ∧ (file_suffix (filename resume) = "docx" →
     docx_paragraphs w (content resume) = Raise e →
     analyze_resume w resume job_description tr
     = (Raise e, tr ++ [TempFileWrite ".docx" (content resume);
                        DocxOpen (content resume)])).
Proof.
  split; intros Hs Hp.
  - rewrite analyze_resume_accepted by (rewrite Hs, !elem_of_cons; auto).
    rewrite Hs. change (String.eqb "pdf" "pdf") with true. cbv iota.
    rewrite bind_run. cbn [emit]. rewrite bind_run, extract_text_from_pdf_run, Hp.
    by rewrite <- app_assoc.
  - rewrite analyze_resume_accepted by (rewrite Hs, !elem_of_cons; auto).
    rewrite Hs. change (String.eqb "docx" "pdf") with false. cbv iota.
    rewrite bind_run. cbn [emit]. rewrite bind_run, extract_text_from_docx_run, Hp.
    by rewrite <- app_assoc.
Qed.

Lemma parse_failure_propagates_witness :
  analyze_resume world_corrupt {| filename := "cv.pdf"; content := [] |} "Need SQL" []
  = (Raise (Exn "PDFSyntaxError" "No /Root object"),
     [TempFileWrite ".pdf" []; PdfOpen []]).
Proof.
  apply (proj1 (parse_failure_propagates world_corrupt
                  {| filename := "cv.pdf"; content := [] |} "Need SQL" []
                  (Exn "PDFSyntaxError" "No /Root object")));
    reflexivity.
Defined.

(** X16. Once the document is read, the endpoint answers with a report,
    whatever the critique service does: the score is between 0 and 100, and
    the matched and the missing skills partition the skills of the job
    description. *)
Theorem analyze_resume_returns_report (w : world) (resume : upload)
    (job_description : string) (tr : list event) :
  (file_suffix (filename resume) = "pdf"
   ∧ is_Ok (pdf_pages w (content resume)))
  ∨ (file_suffix (filename resume) = "docx"
     ∧ is_Ok (docx_paragraphs w (content resume))) →
  ∃ r tr', analyze_resume w resume job_description tr = (Ok (ReportBody r), tr')
    ∧ 0 ≤ Report.score r ≤ 100
    ∧ (list_to_set (Report.matched_skills r) ∪ list_to_set (Report.missing_skills r)
       : gset string) = list_to_set (extract_skills job_description)
    ∧ Report.skill_scores r
      = skill_scores (Report.matched_skills r) (extract_skills job_description).
Proof.
  assert (∀ a b : list string,
    (list_to_set (matched_skills a b) ∪ list_to_set (missing_skills a b) : gset string)
    = list_to_set b) as Hpart.
  { intros a b. unfold matched_skills, missing_skills. rewrite !list_to_set_sorted.
    apply set_eq. intros s.
    rewrite elem_of_union, elem_of_intersection, elem_of_difference.
    destruct (decide (s ∈ (list_to_set a : gset string))); tauto. }
  intros [[Hs Hok]|[Hs Hok]].
  - destruct (pdf_pages w (content resume)) as [pages|] eqn:Hp; [|done].
    destruct (analyze_resume_pdf_run w resume job_description tr pages Hs Hp)
      as (score & a & _ & Hrange & Hrun).
    eexists _, _. split; [exact Hrun|].
    cbn [Report.score Report.matched_skills Report.missing_skills Report.skill_scores].
    split; [done|]. split; [apply Hpart|done].
  - destruct (docx_paragraphs w (content resume)) as [ps|] eqn:Hp; [|done].
    destruct (analyze_resume_docx_run w resume job_description tr ps Hs Hp)
      as (score & a & _ & Hrange & Hrun).
    eexists _, _. split; [exact Hrun|].
    cbn [Report.score Report.matched_skills Report.missing_skills Report.skill_scores].
    split; [done|]. split; [apply Hpart|done].
Qed.

Lemma analyze_resume_returns_report_witness :
  ∃ r tr', analyze_resume world_timeout {| filename := "cv.PDF"; content := [] |}
             "Need Python and Docker" [] = (Ok (ReportBody r), tr')
    ∧ 0 ≤ Report.score r ≤ 100
    ∧ (list_to_set (Report.matched_skills r) ∪ list_to_set (Report.missing_skills r)
       : gset string) = list_to_set (extract_skills "Need Python and Docker")
    ∧ Report.skill_scores r
      = skill_scores (Report.matched_skills r) (extract_skills "Need Python and Docker").
Proof.
  apply (analyze_resume_returns_report world_timeout
           {| filename := "cv.PDF"; content := [] |} "Need Python and Docker" []).
  left. split; [reflexivity|exact I].
Defined.

(** X17. A PDF upload gets no download id, and its request never opens or
    saves a DOCX document. *)
Theorem analyze_resume_pdf_no_download (w : world) (resume : upload)
    (job_description : string) (tr : list event) :
  file_suffix (filename resume) = "pdf" →
  is_Ok (pdf_pages w (content resume)) →
  ∃ r new, analyze_resume w resume job_description tr = (Ok (ReportBody r), tr ++ new)
    ∧ Report.download_id r = None
    ∧ Forall (λ ev, is_docx_event ev = false) new.
Proof.
  intros Hs Hok.
  destruct (pdf_pages w (content resume)) as [pages|] eqn:Hp; [|done].
  destruct (analyze_resume_pdf_run w resume job_description tr pages Hs Hp)
    as (score & a & _ & _ & Hrun).
  eexists _, _. split; [exact Hrun|]. split; [done|].
  repeat constructor. unfold critique_posts.
  destruct (key_missing _); by repeat constructor.
Qed.

Lemma analyze_resume_pdf_no_download_witness :
  ∃ r new, analyze_resume world_timeout {| filename := "cv.pdf"; content := [] |}
             "Need Python" [] = (Ok (ReportBody r), [] ++ new)
    ∧ Report.download_id r = None
    ∧ Forall (λ ev, is_docx_event ev = false) new.
Proof.
  apply (analyze_resume_pdf_no_download world_timeout
           {| filename := "cv.pdf"; content := [] |} "Need Python" []);
    [reflexivity|exact I].
Defined.

(** X18. A DOCX upload is answered with the id under which the rewritten
    document was saved: the document is opened twice, saved with the fixed
    summary in place, and only then is the critique service called. *)
Theorem analyze_resume_docx_download (w : world) (resume : upload)
    (job_description : string) (tr : list event) (ps : list string) :
  file_suffix (filename resume) = "docx" →
  docx_paragraphs w (content resume) = Ok ps →
  ∃ r posts, analyze_resume w resume job_description tr
             = (Ok (ReportBody r),
                tr ++ [TempFileWrite ".docx" (content resume);
                       DocxOpen (content resume); DocxOpen (content resume);
                       DocxSave (uuid4 w) (replace_summary ps SUMMARY_TEXT)]
                   ++ posts)
    ∧ Report.download_id r = Some (uuid4 w)
    ∧ Forall (λ ev, is_post ev = true) posts
    ∧ (length posts ≤ 1)%nat.
Proof.
  intros Hs Hp.
  destruct (analyze_resume_docx_run w resume job_description tr ps Hs Hp)
    as (score & a & _ & _ & Hrun).
  eexists _, _. split; [exact Hrun|]. split; [done|].
  unfold critique_posts. destruct (key_missing _); cbn [length].
  - split; [constructor|lia].
  - split; [by repeat constructor|lia].
Qed.

Lemma analyze_resume_docx_download_witness :
  ∃ r posts, analyze_resume world_timeout {| filename := "cv.docx"; content := [] |}
               "Need Docker" []
             = (Ok (ReportBody r),
                [] ++ [TempFileWrite ".docx" []; DocxOpen []; DocxOpen [];
                       DocxSave "0003"
                         (replace_summary ["Jane Doe"; "Summary"; "old text"; "Docker, AWS"]
                            SUMMARY_TEXT)]
                   ++ posts)
    ∧ Report.download_id r = Some "0003"
    ∧ Forall (λ ev, is_post ev = true) posts
    ∧ (length posts ≤ 1)%nat.
Proof.
  apply (analyze_resume_docx_download world_timeout
           {| filename := "cv.docx"; content := [] |} "Need Docker" []
           ["Jane Doe"; "Summary"; "old text"; "Docker, AWS"]); reflexivity.
Defined.

(** ** The length of the prompt *)

Section PromptLength.

Lemma slice_to_short (n : nat) (s : string) :
  (String.length s ≤ n)%nat → Str.slice_to n s = s.
Proof.
  revert s. induction n as [|n IH]; intros [|c s] Hl; cbn in *; try done; [lia|].
  rewrite IH; [done|lia].
Qed.

Lemma length_str_of_int_percent (z : Z) :
  0 ≤ z ≤ 100 → (String.length (str_of_int z) ≤ 3)%nat.
Proof.
  intros Hz.
  assert (Forall (λ z, (String.length (str_of_int z) ≤ 3)%nat) (seqZ 0 101)) as Htab
    by (apply (bool_decide_unpack _); by vm_compute).
  apply (proj1 (Forall_forall _ _) Htab z). apply elem_of_seqZ. lia.
Qed.

Lemma length_join (l : list string) :
  Forall (λ s, (String.length s ≤ 16)%nat) l →
  (String.length (Str.join ", " l) ≤ 18 * length l)%nat.
Proof.
  induction 1 as [|s l Hs _ IH]; [done|].
  destruct l as [|s' l]; [cbn in *; lia|].
  change (Str.join ", " (s :: s' :: l)) with (s +:+ ", " +:+ Str.join ", " (s' :: l)).
  rewrite !StrFacts.length_app. cbn [length String.length] in *. lia.
Qed.

Lemma length_str_or (x d : string) :
  (String.length (str_or x d) ≤ String.length x + String.length d)%nat.
Proof. destruct x; cbn; lia. Qed.

Lemma vocabulary_length (s : string) :
  s ∈ COMMON_SKILLS → (String.length s ≤ 16)%nat.
Proof.
  assert (Forall (λ s, (String.length s ≤ 16)%nat) COMMON_SKILLS) as Htab
    by (apply (bool_decide_unpack _); by vm_compute).
  apply (proj1 (Forall_forall _ _) Htab).
Qed.

(** A duplicate-free list of vocabulary entries, joined with commas. *)
Lemma length_join_vocabulary (l : list string) :
  Forall (λ s, s ∈ COMMON_SKILLS) l → (length l ≤ 23)%nat →
  (String.length (str_or (Str.join ", " l) "None") ≤ 418)%nat.
Proof.
  intros Hl Hlen. pose proof (length_str_or (Str.join ", " l) "None") as H1.
  assert (String.length (Str.join ", " l) ≤ 18 * length l)%nat as H2.
  { apply length_join. eapply Forall_impl; [exact Hl|]. apply vocabulary_length. }
  cbn [String.length] in H1. lia.
Qed.

Lemma report_lists_vocabulary (text job_description : string) :
  let jd_skills := extract_skills job_description in
  let matched := matched_skills (extract_skills text) jd_skills in
  let missing := missing_skills (extract_skills text) jd_skills in
  (Forall (λ s, s ∈ COMMON_SKILLS) matched ∧ (length matched ≤ 23)%nat)
  ∧ (Forall (λ s, s ∈ COMMON_SKILLS) missing ∧ (length missing ≤ 23)%nat).
Proof.
  intros jd_skills matched missing.
  pose proof (length_matched_missing (extract_skills text) jd_skills
                (extract_skills_NoDup job_description)) as Hlen.
  fold matched missing in Hlen.
  pose proof (length_extract_skills job_description) as H23. fold jd_skills in H23.
  split; (split; [|lia]); apply Forall_forall; intros s Hs.
  - apply elem_of_matched_skills in Hs as [_ Hs].
    by apply (extract_skills_subseteq job_description).
  - apply elem_of_missing_skills in Hs as [Hs _].
    by apply (extract_skills_subseteq job_description).
Qed.

End PromptLength.

(** X19. In the endpoint the prompt is never cut: with a score between 0 and
    100 and the two lists of the report the prompt has at most 3000
    characters, so its first 3000 characters are the whole prompt and the
    closing questions always reach the critique service. *)
Theorem endpoint_prompt_not_truncated (text job_description : string) (score : Z) :
  0 ≤ score ≤ 100 →
  let jd_skills := extract_skills job_description in
  let prompt :=
    ai_prompt text job_description score
      (matched_skills (extract_skills text) jd_skills)
      (missing_skills (extract_skills text) jd_skills) in
  (String.length prompt ≤ 3000)%nat ∧ Str.slice_to 3000 prompt = prompt.
Proof.
  intros Hscore jd_skills prompt.
  assert (String.length prompt ≤ 3000)%nat as Hlen; [|by split; [|apply slice_to_short]].
  destruct (report_lists_vocabulary text job_description) as [[Hm Hml] [Hk Hkl]].
  pose proof (length_join_vocabulary _ Hm Hml) as Hjm.
  pose proof (length_join_vocabulary _ Hk Hkl) as Hjk.
  pose proof (length_str_of_int_percent score Hscore) as Hsc.
  pose proof (StrFacts.length_slice_to 800 text) as Ht.
  pose proof (StrFacts.length_slice_to 800 job_description) as Hj.
  unfold prompt, ai_prompt, jd_skills. rewrite !StrFacts.length_app.
  unfold nl. cbn [String.length]. lia.
Qed.

Lemma endpoint_prompt_not_truncated_witness :
  (String.length
     (ai_prompt "I know Python and SQL" "Need Python and Docker" 50
        (matched_skills (extract_skills "I know Python and SQL")
           (extract_skills "Need Python and Docker"))
        (missing_skills (extract_skills "I know Python and SQL")
           (extract_skills "Need Python and Docker"))) ≤ 3000)%nat
  ∧ Str.slice_to 3000
      (ai_prompt "I know Python and SQL" "Need Python and Docker" 50
         (matched_skills (extract_skills "I know Python and SQL")
            (extract_skills "Need Python and Docker"))
         (missing_skills (extract_skills "I know Python and SQL")
            (extract_skills "Need Python and Docker")))
    = ai_prompt "I know Python and SQL" "Need Python and Docker" 50
        (matched_skills (extract_skills "I know Python and SQL")
           (extract_skills "Need Python and Docker"))
        (missing_skills (extract_skills "I know Python and SQL")
           (extract_skills "Need Python and Docker")).
Proof.
  apply (endpoint_prompt_not_truncated "I know Python and SQL"
           "Need Python and Docker" 50). lia.
Defined.

(** ** More on the texts and the score *)

Section TextsMore.

Lemma foldl_pages (acc : string) (pages : list (option string)) :
  foldl (λ text page, text +:+ str_or (default "" page) "") acc pages
  = acc +:+ foldr String.app "" (omap id pages).
Proof.
  revert acc. induction pages as [|page pages IH]; intros acc; cbn [foldl].
  - by rewrite StrFacts.app_nil_r.
  - rewrite IH. destruct page as [t|]; cbn [omap default id foldr].
    + cbn [mbind option_bind foldr]. rewrite StrFacts.app_assoc. f_equal.
      destruct t; [|done]. by rewrite !StrFacts.app_nil.
    + by rewrite StrFacts.app_nil_r.
Qed.

Lemma length_filter_impl {A} (P Q : A → Prop)
    `{!∀ x, Decision (P x), !∀ x, Decision (Q x)} (l : list A) :
  (∀ x, P x → Q x) → (length (filter P l) ≤ length (filter Q l))%nat.
Proof. intros HPQ. by apply sublist_length, filter_sublist_impl. Qed.

End TextsMore.

(** X20. The text of a PDF is the trimmed concatenation of the texts of its
    pages, in page order and without a separator; a page without text adds
    nothing. *)
Theorem pdf_text_concatenates (w : world) (data : list Byte.byte)
    (pages : list (option string)) (tr : list event) :
  pdf_pages w data = Ok pages →
  extract_text_from_pdf w data tr
  = (Ok (Str.strip (foldr String.app "" (omap id pages))), tr ++ [PdfOpen data]).
Proof.
  intros Hp. rewrite extract_text_from_pdf_run, Hp. unfold pdf_text.
  by rewrite foldl_pages, StrFacts.app_nil.
Qed.

Lemma pdf_text_concatenates_witness :
  extract_text_from_pdf world_timeout [] []
  = (Ok "I know Python and SQL", [PdfOpen []]).
Proof.
  apply (pdf_text_concatenates world_timeout []
           [Some "I know Python "; None; Some "and SQL"] []).
  reflexivity.
Defined.

(** X21. A job description that names no vocabulary skill gives the score
    0, empty matched and missing lists and an empty score map, whatever the
    resume says. *)
Theorem no_job_skills (text job_description : string) :
  extract_skills job_description = [] →
  let jd_skills := extract_skills job_description in
  let matched := matched_skills (extract_skills text) jd_skills in
  ats_keyword_score text jd_skills = Ok 0
  ∧ matched = []
  ∧ missing_skills (extract_skills text) jd_skills = []
  ∧ skill_scores matched jd_skills = ∅.
Proof.
  intros Hnil. cbn zeta. rewrite Hnil. split; [done|].
  assert (matched_skills (extract_skills text) [] = []) as ->.
  { apply sorted_nil. apply set_eq. intros s.
    rewrite elem_of_intersection, !elem_of_list_to_set, elem_of_nil, elem_of_empty.
    tauto. }
  split; [done|]. split; [|done].
  apply sorted_nil. apply set_eq. intros s.
  rewrite elem_of_difference, !elem_of_list_to_set, elem_of_nil, elem_of_empty.
  tauto.
Qed.

Lemma no_job_skills_witness :
  ats_keyword_score "Python, SQL, Docker" (extract_skills "We need a team player")
  = Ok 0
  ∧ matched_skills (extract_skills "Python, SQL, Docker")
      (extract_skills "We need a team player") = []
  ∧ missing_skills (extract_skills "Python, SQL, Docker")
      (extract_skills "We need a team player") = []
  ∧ skill_scores (matched_skills (extract_skills "Python, SQL, Docker")
                    (extract_skills "We need a team player"))
      (extract_skills "We need a team player") = ∅.
Proof.
  apply (no_job_skills "Python, SQL, Docker" "We need a team player"). reflexivity.
Defined.

(** X22. Text added around a resume never lowers its score against the
    skills of a job description. *)
Theorem score_grows_with_text (pre text post job_description : string) :
  ∃ z z',
    ats_keyword_score text (extract_skills job_description) = Ok z
    ∧ ats_keyword_score (pre +:+ text +:+ post) (extract_skills job_description) = Ok z'
    ∧ z ≤ z'.
Proof.
  set (jd_skills := extract_skills job_description).
  destruct (decide (jd_skills = [])) as [->|Hne]; [by exists 0, 0|].
  pose proof (length_extract_skills job_description) as H23. fold jd_skills in H23.
  assert (0 < length jd_skills)%nat by (destruct jd_skills; [done|cbn; lia]).
  rewrite !ats_keyword_score_percent by done.
  pose proof (scorer_matched_count_bounds text jd_skills) as Hb.
  pose proof (scorer_matched_count_bounds (pre +:+ text +:+ post) jd_skills) as Hb'.
  rewrite !percent_floor by lia. eexists _, _. split; [done|]. split; [done|].
  unfold floor_percent. apply Z.div_le_mono; [lia|].
  apply Z.mul_le_mono_nonneg_l; [lia|].
  rewrite !scorer_matched_count_length. apply inj_le, length_filter_impl.
  intros s. rewrite !Is_true_true, !StrFacts.lower_app. apply contains_app.
Qed.
